(** * RansomMon: the company registry, the matching pipeline and alert triage

    A shallow embedding of [RansomMon_2.py].  The Streamlit session
    ([st.session_state]) is an explicit record that every handler takes and
    returns; calls to [save_data] and to [st.error]/[st.warning]/... are
    recorded, in order, in the session's trace.  Identifiers come from a
    generator [uuid4] indexed by the number of identifiers drawn so far, and
    detection times from a clock [now_iso] indexed the same way.

    Strings are Rocq strings (sequences of 8-bit characters); [str.lower] and
    [str.strip] are the ASCII restrictions of Python's. *)

From Stdlib Require Import String Ascii List ZArith Lia Bool Arith DecimalString.
From Stdlib Require Import Sorting.Sorted Sorting.Permutation.
Import ListNotations.
Open Scope string_scope.
Open Scope Z_scope.

(* ------------------------------------------------------------------ *)
(** ** Strings as Python uses them *)

Module PyStr.

(** [c.lower()] on one ASCII character. *)
Definition lower_ascii (c : ascii) : ascii :=
  let n := nat_of_ascii c in
  if (65 <=? n)%nat && (n <=? 90)%nat then ascii_of_nat (n + 32) else c.

(** [s.lower()] *)
Fixpoint lower (s : string) : string :=
  match s with
  | EmptyString => EmptyString
  | String c r => String (lower_ascii c) (lower r)
  end.

(** [c.isspace()] for ASCII: tab, LF, VT, FF, CR, FS, GS, RS, US, space. *)
Definition is_space (c : ascii) : bool :=
  let n := nat_of_ascii c in
  ((9 <=? n)%nat && (n <=? 13)%nat) || ((28 <=? n)%nat && (n <=? 32)%nat).

(** [s.lstrip()] *)
Fixpoint lstrip (s : string) : string :=
  match s with
  | EmptyString => EmptyString
  | String c r => if is_space c then lstrip r else s
  end.

(** [s.rstrip()] *)
Fixpoint rstrip (s : string) : string :=
  match s with
  | EmptyString => EmptyString
  | String c r =>
      match rstrip r with
      | EmptyString => if is_space c then EmptyString else String c EmptyString
      | r' => String c r'
      end
  end.

(** [s.strip()] *)
Definition strip (s : string) : string := rstrip (lstrip s).

(** Truthiness of a string: [bool(s)]. *)
Definition truthy (s : string) : bool :=
  match s with EmptyString => false | _ => true end.

(** [s.startswith(k)] *)
Fixpoint startswith (k s : string) : bool :=
  match k, s with
  | EmptyString, _ => true
  | String _ _, EmptyString => false
  | String a k', String b s' => Ascii.eqb a b && startswith k' s'
  end.

(** [k in s] for strings: [k] occurs at some position of [s]. *)
Fixpoint contains (k s : string) : bool :=
  startswith k s ||
  match s with
  | EmptyString => false
  | String _ s' => contains k s'
  end.

(** [s.split(sep)] for a one-character separator: never an empty list. *)
Fixpoint split (sep : ascii) (s : string) : list string :=
  match s with
  | EmptyString => [EmptyString]
  | String c r =>
      if Ascii.eqb c sep then EmptyString :: split sep r
      else match split sep r with
           | [] => [String c EmptyString]
           | w :: ws => String c w :: ws
           end
  end.

(** [a in l] for a list of strings. *)
Definition mem (a : string) (l : list string) : bool :=
  existsb (String.eqb a) l.

(** Insertion of a key into a list that is sorted by [<=] on strings. *)
Fixpoint insert_sorted (a : string) (l : list string) : list string :=
  match l with
  | [] => [a]
  | b :: r => if String.leb a b then a :: l else b :: insert_sorted a r
  end.

(** [sorted(list(set(l)))]: the distinct elements of [l] in increasing
    order.  A set keeps one copy of each element; sorting fixes the order
    whatever the set's iteration order was. *)
Fixpoint sorted_set (l : list string) : list string :=
  match l with
  | [] => []
  | a :: r => let s := sorted_set r in if mem a s then s else insert_sorted a s
  end.

End PyStr.

(** Python's [sorted(l, key=..., reverse=...)] is a stable sort: elements
    with equal keys keep their relative order, also with [reverse=True].
    The model is the stable insertion sort for the order [le_key], which is
    [key a <= key b] for an ascending sort and [key a >= key b] for a
    reversed one. *)
Section Sorted.
Context {A : Type} (le_key : A -> A -> bool).

Fixpoint insert_stable (a : A) (l : list A) : list A :=
  match l with
  | [] => [a]
  | b :: r => if le_key a b then a :: l else b :: insert_stable a r
  end.

Fixpoint py_sorted (l : list A) : list A :=
  match l with
  | [] => []
  | a :: r => insert_stable a (py_sorted r)
  end.
End Sorted.

(* ------------------------------------------------------------------ *)
(** ** Dates: [datetime.strptime(s, "%Y-%m-%d").date()] and [date.today()]

    A date is its proleptic Gregorian ordinal ([date.toordinal()]): day 1 is
    0001-01-01.  Dates compare as their ordinals do, and subtracting a
    [Timedelta(days=w)] subtracts [w]; the subtraction is taken in [Z] (the
    windows of [date_range_options] are at most 90 days). *)

Module PyDate.

Definition is_digit (c : ascii) : bool :=
  let n := nat_of_ascii c in (48 <=? n)%nat && (n <=? 57)%nat.

Definition digit (c : ascii) : Z := Z.of_nat (nat_of_ascii c) - 48.

Definition is_leap (y : Z) : bool :=
  (y mod 4 =? 0) && (negb (y mod 100 =? 0) || (y mod 400 =? 0)).

Definition days_in_month (y m : Z) : Z :=
  if m =? 2 then (if is_leap y then 29 else 28)
  else if (m =? 4) || (m =? 6) || (m =? 9) || (m =? 11) then 30
  else 31.

(** Days of the year before the first of month [m]. *)
Definition days_before_month (y m : Z) : Z :=
  nth (Z.to_nat (m - 1)) [0; 31; 59; 90; 120; 151; 181; 212; 243; 273; 304; 334] 0
  + (if (2 <? m) && is_leap y then 1 else 0).

(** Days before the first of January of year [y]. *)
Definition days_before_year (y : Z) : Z :=
  let p := y - 1 in p * 365 + p / 4 - p / 100 + p / 400.

Definition ymd2ord (y m d : Z) : Z :=
  days_before_year y + days_before_month y m + d.

(** The directive [%d]: [3[01]|[12]\d|0[1-9]|[1-9]| [1-9]], which must
    reach the end of the string (anything left over is a [ValueError]). *)
Definition parse_day (s : string) : option Z :=
  match s with
  | String a EmptyString =>
      if is_digit a && negb (Ascii.eqb a "0") then Some (digit a) else None
  | String a (String b EmptyString) =>
      if Ascii.eqb a "3" && (Ascii.eqb b "0" || Ascii.eqb b "1") then Some (30 + digit b)
      else if (Ascii.eqb a "1" || Ascii.eqb a "2") && is_digit b then Some (10 * digit a + digit b)
      else if (Ascii.eqb a "0" || Ascii.eqb a " ") && is_digit b && negb (Ascii.eqb b "0")
      then Some (digit b)
      else None
  | _ => None
  end.

(** The directive [%m], [1[0-2]|0[1-9]|[1-9]], followed by the literal
    [-]; gives the month and the rest of the string. *)
Definition parse_month (s : string) : option (Z * string) :=
  match s with
  | String a (String "-" r) =>
      if is_digit a && negb (Ascii.eqb a "0") then Some (digit a, r) else None
  | String a (String b (String "-" r)) =>
      if Ascii.eqb a "1" && (Ascii.eqb b "0" || Ascii.eqb b "1" || Ascii.eqb b "2")
      then Some (10 + digit b, r)
      else if Ascii.eqb a "0" && is_digit b && negb (Ascii.eqb b "0") then Some (digit b, r)
      else None
  | _ => None
  end.

(** [datetime.strptime(s, "%Y-%m-%d").date()]: [Some] of the date's
    ordinal, or [None] where Python raises [ValueError] (the string does
    not match the format, or names no day of the calendar). *)
Definition strptime (s : string) : option Z :=
  match s with
  | String y1 (String y2 (String y3 (String y4 (String "-" r)))) =>
      if is_digit y1 && is_digit y2 && is_digit y3 && is_digit y4 then
        let y := 1000 * digit y1 + 100 * digit y2 + 10 * digit y3 + digit y4 in
        match parse_month r with
        | Some (m, r') =>
            match parse_day r' with
            | Some d =>
                if (1 <=? y) && (d <=? days_in_month y m) then Some (ymd2ord y m d)
                else None
            | None => None
            end
        | None => None
        end
      else None
  | _ => None
  end.

End PyDate.

(* ------------------------------------------------------------------ *)
(** ** The data model: the JSON documents of the two files and of the feed *)

(** One company of [companies.json]. *)
Record company := mkCompany {
  c_id : string;
  c_name : string;
  c_description : string;
  c_keywords : list string
}.

(** The value of [claim_gang] in a feed entry: [false] or a string. *)
Inductive gang := GangFalse | GangName (s : string).

(** One entry of the feed; a key that is absent is [None]. *)
Record entry := mkEntry {
  e_victim : option string;
  e_title : option string;
  e_domain : option string;
  e_date : option string;
  e_claim_gang : option gang;
  e_url : option string;
  e_link : option string;
  e_summary : option string
}.

(** [alert['api_data']] *)
Record api_data := mkApiData {
  victim_name_api : string;
  article_title_api : string;
  domain_api : string;
  display_victim_name : string;
  ad_date : option string;
  group_name : string;
  source_url : string;
  internal_link : string;
  summary : string
}.

(** One alert of [alerts.json]. *)
Record alert := mkAlert {
  a_id : string;
  a_company_id : string;
  a_company_name : string;
  a_matched_keyword : string;
  a_api_entry_id : string;
  a_api_data : api_data;
  a_status : string;
  a_timestamp : option string
}.

(** [d.get(key, default)] for a string field. *)
Definition get_or (o : option string) (default : string) : string :=
  match o with Some s => s | None => default end.

(** What the handlers show to the user. *)
Inductive message :=
| ErrCompanyNameRequired
| InfoCsvRead (n : nat)
| ErrCsv
| ErrNoKeyword
| WarnCompanyExists (name : string)
| OkCompanyAdded (name : string) (n : nat)
| OkCompanyRemoved (name : string)
| WarnNoCompanies
| OkFetched (n : nat)
| WarnDateParse (date title : string)
| OkNewAlerts (n : nat)
| InfoNoNewAlerts
| ErrHttp (detail : string) (status : Z) (body : string)
| ErrTimeout
| ErrRequest (detail : string)
| ErrJsonDecode (detail : string) (status : Z) (body : string)
| ErrUnexpected (detail : string)
| WarnNoneSelected
| OkBulkUpdated (n : nat) (status : string).

(** What a handler does to the world outside the session, in order. *)
Inductive event :=
| SaveCompanies (data : list company)   (* save_data(COMPANIES_FILE, data) *)
| SaveAlerts (data : list alert)        (* save_data(ALERTS_FILE, data) *)
| Show (m : message)                    (* st.error, st.warning, st.info, st.success *)
| Rerun.                                (* st.rerun() *)

(** [st.session_state], the number of identifiers and timestamps drawn so
    far, and the trace of effects.  [selected_alerts] is a dict: its keys are
    distinct and kept in insertion order. *)
Record session := mkSession {
  companies : list company;
  alerts : list alert;
  selected_alerts : list (string * bool);
  uuids_drawn : nat;
  ticks : nat;
  trace : list event
}.

Definition emit (ev : event) (s : session) : session :=
  mkSession (companies s) (alerts s) (selected_alerts s)
            (uuids_drawn s) (ticks s) (trace s ++ [ev]).

Definition set_companies (cs : list company) (s : session) : session :=
  mkSession cs (alerts s) (selected_alerts s) (uuids_drawn s) (ticks s) (trace s).

Definition set_alerts (al : list alert) (s : session) : session :=
  mkSession (companies s) al (selected_alerts s) (uuids_drawn s) (ticks s) (trace s).

Definition set_selected (sel : list (string * bool)) (s : session) : session :=
  mkSession (companies s) (alerts s) sel (uuids_drawn s) (ticks s) (trace s).

Definition draw_uuid (s : session) : session :=
  mkSession (companies s) (alerts s) (selected_alerts s)
            (S (uuids_drawn s)) (ticks s) (trace s).

Definition tick (s : session) : session :=
  mkSession (companies s) (alerts s) (selected_alerts s)
            (uuids_drawn s) (S (ticks s)) (trace s).

(** [save_data(COMPANIES_FILE, st.session_state.companies)] *)
Definition save_companies (s : session) : session := emit (SaveCompanies (companies s)) s.

(** [save_data(ALERTS_FILE, st.session_state.alerts)] *)
Definition save_alerts (s : session) : session := emit (SaveAlerts (alerts s)) s.

(** [d[k] = v] on a dict: the value of an existing key is replaced in
    place, a new key goes to the end. *)
Fixpoint dict_set (k : string) (v : bool) (d : list (string * bool)) : list (string * bool) :=
  match d with
  | [] => [(k, v)]
  | (k', v') :: r => if String.eqb k' k then (k, v) :: r else (k', v') :: dict_set k v r
  end.

(** [k in d] on a dict. *)
Definition dict_has (k : string) (d : list (string * bool)) : bool :=
  existsb (fun kv => String.eqb (fst kv) k) d.

(* ------------------------------------------------------------------ *)
(** ** The program *)

Section RansomMon.

(** [str(uuid.uuid4())]: the [n]-th identifier the process generates. *)
Variable uuid4 : nat -> string.
(** [datetime.now().isoformat()]: the [n]-th reading of the clock. *)
Variable now_iso : nat -> string.

(** *** manage_companies_page: the form "Add New Company" *)

(** The uploaded CSV as [pd.read_csv(..., header=None)] gives it: the
    first column, each cell through [str], or an exception. *)
Inductive csv_upload :=
| CsvFirstColumn (cells : list string)
| CsvRaises.

(** [[kw.strip().lower() for kw in l if kw.strip()]] *)
Definition clean_keywords (l : list string) : list string :=
  map (fun kw => PyStr.lower (PyStr.strip kw))
      (filter (fun kw => PyStr.truthy (PyStr.strip kw)) l).

(** [any(c['name'].lower() == company_name.lower() for c in companies)] *)
Definition name_taken (company_name : string) (cs : list company) : bool :=
  existsb (fun c => String.eqb (PyStr.lower (c_name c)) (PyStr.lower company_name)) cs.

(** Lines 75-84: the keywords of the uploaded file, with what is shown. *)
Definition read_csv_keywords (uploaded_file : option csv_upload) (s : session)
  : list string * session :=
  match uploaded_file with
  | None => ([], s)
  | Some (CsvFirstColumn cells) =>
      let csv_keywords := clean_keywords cells in
      (csv_keywords, emit (Show (InfoCsvRead (length csv_keywords))) s)
  | Some CsvRaises => ([], emit (Show ErrCsv) s)
  end.

(** Lines 70-102: the form was submitted. *)
Definition add_company (company_name company_description keywords_str : string)
           (uploaded_file : option csv_upload) (s : session) : session :=
  if negb (PyStr.truthy company_name) then emit (Show ErrCompanyNameRequired) s
  else
    let manual_keywords := clean_keywords (PyStr.split "," keywords_str) in
    let (csv_keywords, s1) := read_csv_keywords uploaded_file s in
    let all_keywords := PyStr.sorted_set (manual_keywords ++ csv_keywords) in
    match all_keywords with
    | [] => emit (Show ErrNoKeyword) s1
    | _ :: _ =>
        if name_taken company_name (companies s1)
        then emit (Show (WarnCompanyExists company_name)) s1
        else
          let new_company :=
            mkCompany (uuid4 (uuids_drawn s1)) company_name company_description all_keywords in
          let s2 := draw_uuid s1 in
          let s3 := set_companies (companies s2 ++ [new_company]) s2 in
          emit Rerun
            (emit (Show (OkCompanyAdded company_name (length all_keywords)))
               (save_companies s3))
    end.

(** *** manage_companies_page: the button "Remove" of the [i]-th company *)

(** [l.pop(i)] for [i] in range. *)
Fixpoint pop {A : Type} (i : nat) (l : list A) : list A :=
  match l, i with
  | [], _ => []
  | _ :: r, O => r
  | a :: r, S j => a :: pop j r
  end.

(** Lines 214-227.  The button exists for the rows of the company list
    only; for another [i] nothing was clicked. *)
Definition remove_company (i : nat) (s : session) : session :=
  match nth_error (companies s) i with
  | None => s
  | Some company =>
      let s1 := set_companies (pop i (companies s)) s in
      let s2 := save_companies s1 in
      let s3 :=
        set_alerts
          (filter (fun alert => negb (String.eqb (a_company_id alert) (c_id company)))
                  (alerts s2)) s2 in
      let s4 :=
        set_selected
          (filter (fun kv =>
                     negb (existsb (fun a => String.eqb (a_id a) (fst kv)
                                             && String.eqb (a_company_id a) (c_id company))
                                   (alerts s3)))
                  (selected_alerts s3)) s3 in
      emit Rerun (emit (Show (OkCompanyRemoved (c_name company))) (save_alerts s4))
  end.

(** *** check_api_page: the button "Fetch New Ransomware Data" *)

(** Lines 273-287: does the loop [continue] on the entry's date? *)
Inductive verdict := Skip | Pass.

Definition entry_date_filter (window : option Z) (today : Z) (e : entry) (s : session)
  : verdict * session :=
  let api_entry_date_str := e_date e in
  match api_entry_date_str with
  | None => (match window with Some _ => Skip | None => Pass end, s)
  | Some str =>
      if negb (PyStr.truthy str) || String.eqb str "N/A"
      then (match window with Some _ => Skip | None => Pass end, s)
      else
        match PyDate.strptime str with
        | Some api_entry_date_obj =>
            match window with
            | Some w =>
                let cutoff_date := today - w in
                if api_entry_date_obj <? cutoff_date then (Skip, s) else (Pass, s)
            | None => (Pass, s)
            end
        | None =>
            let s' := emit (Show (WarnDateParse str (get_or (e_title e) "Unknown"))) s in
            (match window with Some _ => Skip | None => Pass end, s')
        end
  end.

(** Lines 290-300: [keyword in field if field else False], on the three
    lower-cased fields. *)
Definition match_in (keyword field : string) : bool :=
  if PyStr.truthy field then PyStr.contains keyword field else false.

Definition entry_matches (keyword : string) (e : entry) : bool :=
  let victim_name_api := PyStr.lower (get_or (e_victim e) "") in
  let article_title_api := PyStr.lower (get_or (e_title e) "") in
  let domain_api := PyStr.lower (get_or (e_domain e) "") in
  match_in keyword victim_name_api
  || match_in keyword article_title_api
  || match_in keyword domain_api.

(** Lines 304-309: the loop that looks for the triple. *)
Definition same_triple (company_id keyword entry_identifier : string) (a : alert) : bool :=
  String.eqb (a_company_id a) company_id
  && String.eqb (a_matched_keyword a) keyword
  && String.eqb (a_api_entry_id a) entry_identifier.

Definition alert_exists (company_id keyword entry_identifier : string) (al : list alert) : bool :=
  existsb (same_triple company_id keyword entry_identifier) al.

(** Lines 313-317 *)
Definition gang_name (e : entry) : string :=
  match e_claim_gang e with
  | Some GangFalse => "N/A"
  | Some (GangName g) => if PyStr.truthy g then g else "Unknown"
  | None => "Unknown"
  end.

(** Lines 319-338 *)
Definition new_alert (alert_id entry_identifier timestamp : string)
           (c : company) (keyword : string) (e : entry) : alert :=
  mkAlert alert_id (c_id c) (c_name c) keyword entry_identifier
    (mkApiData (get_or (e_victim e) "N/A")
               (get_or (e_title e) "N/A")
               (get_or (e_domain e) "N/A")
               (get_or (e_victim e) (get_or (e_title e) "N/A"))
               (Some (get_or (e_date e) "N/A"))
               (gang_name e)
               (get_or (e_url e) "N/A")
               (get_or (e_link e) "N/A")
               (get_or (e_summary e) "N/A"))
    "Open" (Some timestamp).

(** Line 301, [entry.get("link", str(uuid.uuid4()))]: Python evaluates
    the default before the call, so one identifier is drawn whether or not
    the entry has a link. *)
Definition entry_identifier_of (e : entry) (s : session) : string * session :=
  let default := uuid4 (uuids_drawn s) in
  (get_or (e_link e) default, draw_uuid s).

(** The body of the innermost loop, lines 273-340; the second component
    is [new_alerts_found]. *)
Definition process_entry (window : option Z) (today : Z) (c : company) (keyword : string)
           (acc : session * nat) (e : entry) : session * nat :=
  let (s, new_alerts_found) := acc in
  match entry_date_filter window today e s with
  | (Skip, s1) => (s1, new_alerts_found)
  | (Pass, s1) =>
      if entry_matches keyword e then
        let (entry_identifier, s2) := entry_identifier_of e s1 in
        if alert_exists (c_id c) keyword entry_identifier (alerts s2)
        then (s2, new_alerts_found)
        else
          let alert_id := uuid4 (uuids_drawn s2) in
          let s3 := draw_uuid s2 in
          let timestamp := now_iso (ticks s3) in
          let s4 := tick s3 in
          (set_alerts (alerts s4 ++ [new_alert alert_id entry_identifier timestamp c keyword e]) s4,
           S new_alerts_found)
      else (s1, new_alerts_found)
  end.

(** Lines 270-272: the three nested loops. *)
Definition process_keyword window today (api_data : list entry) (c : company)
           (acc : session * nat) (keyword : string) : session * nat :=
  fold_left (process_entry window today c keyword) api_data acc.

Definition process_company window today (api_data : list entry)
           (acc : session * nat) (c : company) : session * nat :=
  fold_left (process_keyword window today api_data c) (c_keywords c) acc.

Definition match_feed window today (api_data : list entry) (s : session) : session * nat :=
  fold_left (process_company window today api_data) (companies s) (s, O).

(** An exception of [requests.get(...)], [raise_for_status()] or
    [response.json()]: the classes of the [except] clauses that it is an
    instance of, [str(e)], and the status and the first 500 characters of
    the body of the response that came with it. *)
Record exception := mkException {
  is_HTTPError : bool;
  is_Timeout : bool;
  is_RequestException : bool;
  is_JSONDecodeError : bool;
  exc_str : string;
  exc_status_code : Z;
  exc_text : string
}.

(** What the three calls come to: the decoded feed, or an exception. *)
Inductive fetched :=
| Feed (api_data : list entry)
| Raises (e : exception).

(** Lines 349-375: the first [except] clause that the exception is an
    instance of shows its message. *)
Definition error_message (e : exception) : message :=
  if is_HTTPError e then ErrHttp (exc_str e) (exc_status_code e) (exc_text e)
  else if is_Timeout e then ErrTimeout
  else if is_RequestException e then ErrRequest (exc_str e)
  else if is_JSONDecodeError e then ErrJsonDecode (exc_str e) (exc_status_code e) (exc_text e)
  else ErrUnexpected (exc_str e).

(** Lines 256-375: the page's guard and the click on the button. *)
Definition fetch_and_check (window : option Z) (today : Z) (response : fetched)
           (s : session) : session :=
  match companies s with
  | [] => emit (Show WarnNoCompanies) s
  | _ :: _ =>
      match response with
      | Feed api_data =>
          let s1 := emit (Show (OkFetched (length api_data))) s in
          let (s2, new_alerts_found) := match_feed window today api_data s1 in
          if (0 <? new_alerts_found)%nat
          then emit Rerun (emit (Show (OkNewAlerts new_alerts_found)) (save_alerts s2))
          else emit (Show InfoNoNewAlerts) s2
      | Raises e => emit (Show (error_message e)) s
      end
  end.

(** *** check_api_page: the list "Monitored Alerts" *)

(** [status_order.get(status, 99)] *)
Definition status_order (status : string) : Z :=
  if String.eqb status "Open" then 0
  else if String.eqb status "In Progress" then 1
  else if String.eqb status "Complete" then 2
  else if String.eqb status "False Positive" then 3
  else 99.

(** [x.get('timestamp', '')] *)
Definition timestamp_key (a : alert) : string := get_or (a_timestamp a) "".

(** Lines 383-384: by timestamp, reversed; then by status rank. *)
Definition sorted_alerts_all (al : list alert) : list alert :=
  py_sorted (fun a b => status_order (a_status a) <=? status_order (a_status b))
    (py_sorted (fun a b => String.leb (timestamp_key b) (timestamp_key a)) al).

(** Lines 401-411: does the loop [continue] on the alert's date? *)
Definition alert_date_filter (window : option Z) (today : Z) (a : alert) : verdict :=
  match window with
  | None => Pass
  | Some w =>
      match ad_date (a_api_data a) with
      | None => Skip
      | Some alert_api_date_str =>
          if negb (PyStr.truthy alert_api_date_str) || String.eqb alert_api_date_str "N/A"
          then Skip
          else
            match PyDate.strptime alert_api_date_str with
            | Some alert_api_date_obj =>
                let cutoff_display_date := today - w in
                if alert_api_date_obj <? cutoff_display_date then Skip else Pass
            | None => Skip
            end
      end
  end.

(** Lines 399-418 *)
Definition displayed (window : option Z) (today : Z)
           (filter_company_name filter_status : string) (a : alert) : bool :=
  match alert_date_filter window today a with
  | Skip => false
  | Pass =>
      if negb (String.eqb filter_company_name "All")
         && negb (String.eqb (a_company_name a) filter_company_name) then false
      else if negb (String.eqb filter_status "All")
              && negb (String.eqb (a_status a) filter_status) then false
      else true
  end.

Definition alerts_to_display window today filter_company_name filter_status
           (s : session) : list alert :=
  filter (displayed window today filter_company_name filter_status)
         (sorted_alerts_all (alerts s)).

(** *** check_api_page: the button "Apply Status to Selected" *)

Definition set_status (status : string) (a : alert) : alert :=
  mkAlert (a_id a) (a_company_id a) (a_company_name a) (a_matched_keyword a)
          (a_api_entry_id a) (a_api_data a) status (a_timestamp a).

(** Line 447 *)
Definition selected_ids_for_update (visible : list alert) (sel : list (string * bool))
  : list string :=
  map fst
      (filter (fun kv => snd kv && existsb (fun a => String.eqb (a_id a) (fst kv)) visible)
              sel).

(** Lines 451-455: the loop over the collection; gives the collection and
    [updated_count]. *)
Fixpoint apply_status (ids : list string) (new_bulk_status : string) (al : list alert)
  : list alert * nat :=
  match al with
  | [] => ([], O)
  | alert_item :: r =>
      let (r', updated_count) := apply_status ids new_bulk_status r in
      if PyStr.mem (a_id alert_item) ids
      then (set_status new_bulk_status alert_item :: r', S updated_count)
      else (alert_item :: r', updated_count)
  end.

(** Lines 446-462, for the requested ids [ids]. *)
Definition bulk_set_status (ids : list string) (new_bulk_status : string) (s : session)
  : session :=
  match ids with
  | [] => emit (Show WarnNoneSelected) s
  | _ :: _ =>
      let (al, updated_count) := apply_status ids new_bulk_status (alerts s) in
      let s1 := set_alerts al s in
      if (0 <? updated_count)%nat then
        let s2 := save_alerts s1 in
        let s3 := set_selected
                    (fold_left (fun d id_updated => dict_set id_updated false d)
                               ids (selected_alerts s2)) s2 in
        emit Rerun (emit (Show (OkBulkUpdated updated_count new_bulk_status)) s3)
      else s1
  end.

Definition bulk_apply_status window today filter_company_name filter_status
           (new_bulk_status : string) (s : session) : session :=
  bulk_set_status
    (selected_ids_for_update
       (alerts_to_display window today filter_company_name filter_status s)
       (selected_alerts s))
    new_bulk_status s.

End RansomMon.

(* ------------------------------------------------------------------ *)
(** ** The rest of the two pages: editing a company, the company list,
       selecting, updating and deleting single alerts *)

(** [next((i for i, x in enumerate(l) if p(x)), None)], and [l.index(x)]
    with [None] for its [ValueError]. *)
Fixpoint find_index {A : Type} (p : A -> bool) (l : list A) : option nat :=
  match l with
  | [] => None
  | x :: r => if p x then Some O else option_map S (find_index p r)
  end.

(** [l[i] = f(l[i])]: the dict at position [i] is changed in place. *)
Fixpoint update_at {A : Type} (i : nat) (f : A -> A) (l : list A) : list A :=
  match l, i with
  | [], _ => []
  | x :: r, O => f x :: r
  | x :: r, S j => x :: update_at j f r
  end.

(** [d.get(k, False)] on the selection. *)
Fixpoint dict_get (k : string) (d : list (string * bool)) : bool :=
  match d with
  | [] => false
  | (k', v) :: r => if String.eqb k' k then v else dict_get k r
  end.

(** [del d[k]] for a key of [d]. *)
Fixpoint dict_del (k : string) (d : list (string * bool)) : list (string * bool) :=
  match d with
  | [] => []
  | (k', v) :: r => if String.eqb k' k then r else (k', v) :: dict_del k r
  end.

(** What the handlers of this part show to the user. *)
Inductive notice :=
| OkKeywordRemoved (keyword : string)
| WarnKeywordGone (keyword : string)
| ErrNameEmpty
| ErrAnotherCompany (name : string)
| InfoCsvReadEdit (n : nat)
| ErrCsvEdit
| OkCompanyUpdated (name : string)
| OkStatusUpdated (victim status : string)
| OkAlertDeleted (victim : string).

(** The session, [st.session_state.editing_company_id], and the notices
    shown so far. *)
Record page := mkPage {
  page_session : session;
  editing_company_id : option string;
  notices : list notice
}.

Definition notify (n : notice) (p : page) : page :=
  mkPage (page_session p) (editing_company_id p) (notices p ++ [n]).

Definition with_session (s : session) (p : page) : page :=
  mkPage s (editing_company_id p) (notices p).

Definition with_editing (id : option string) (p : page) : page :=
  mkPage (page_session p) id (notices p).

Definition set_keywords (keywords : list string) (c : company) : company :=
  mkCompany (c_id c) (c_name c) (c_description c) keywords.

Definition set_name_description (name description : string) (c : company) : company :=
  mkCompany (c_id c) name description (c_keywords c).

(** Line 106 *)
Definition company_to_edit_index (id : string) (cs : list company) : option nat :=
  find_index (fun c => String.eqb (c_id c) id) cs.

(** Lines 116-130: the button "Del" of the [kw_idx]-th keyword of the
    company that is being edited. *)
Definition delete_keyword (kw_idx : nat) (p : page) : page :=
  let s := page_session p in
  match editing_company_id p with
  | None => p
  | Some id =>
      match company_to_edit_index id (companies s) with
      | None => with_session (emit Rerun s) (with_editing None p)
      | Some idx =>
          match nth_error (companies s) idx with
          | None => p
          | Some company_to_edit =>
              match nth_error (c_keywords company_to_edit) kw_idx with
              | None => p
              | Some keyword_to_delete =>
                  match find_index (String.eqb keyword_to_delete)
                                   (c_keywords company_to_edit) with
                  | Some original_list_idx =>
                      let s1 :=
                        set_companies
                          (update_at idx
                             (fun c => set_keywords (pop original_list_idx (c_keywords c)) c)
                             (companies s)) s in
                      notify (OkKeywordRemoved keyword_to_delete)
                             (with_session (emit Rerun (save_companies s1)) p)
                  | None =>
                      notify (WarnKeywordGone keyword_to_delete)
                             (with_session (emit Rerun s) p)
                  end
              end
          end
      end
  end.

(** Lines 162-171: the keywords of the file uploaded in the edit form. *)
Definition read_csv_new_keywords (new_uploaded_file : option csv_upload) (p : page)
  : list string * page :=
  match new_uploaded_file with
  | None => ([], p)
  | Some (CsvFirstColumn cells) =>
      let csv_new_kws := clean_keywords cells in
      (csv_new_kws, notify (InfoCsvReadEdit (length csv_new_kws)) p)
  | Some CsvRaises => ([], notify ErrCsvEdit p)
  end.

(** Lines 151-180: the button "Save Changes" of the edit form. *)
Definition save_changes (edited_name edited_description new_keywords_str : string)
           (new_uploaded_file : option csv_upload) (p : page) : page :=
  let s := page_session p in
  match editing_company_id p with
  | None => p
  | Some id =>
      match company_to_edit_index id (companies s) with
      | None => with_session (emit Rerun s) (with_editing None p)
      | Some idx =>
          match nth_error (companies s) idx with
          | None => p
          | Some company_to_edit =>
              if negb (PyStr.truthy edited_name) then notify ErrNameEmpty p
              else if negb (String.eqb (PyStr.lower edited_name)
                                       (PyStr.lower (c_name company_to_edit)))
                      && existsb (fun c => String.eqb (PyStr.lower (c_name c))
                                                      (PyStr.lower edited_name)
                                           && negb (String.eqb (c_id c) (c_id company_to_edit)))
                                 (companies s)
              then notify (ErrAnotherCompany edited_name) p
              else
                let manual_new_kws := clean_keywords (PyStr.split "," new_keywords_str) in
                let (csv_new_kws, p1) := read_csv_new_keywords new_uploaded_file p in
                let s1 :=
                  set_companies
                    (update_at idx
                       (fun c =>
                          set_keywords
                            (PyStr.sorted_set (c_keywords c ++ manual_new_kws ++ csv_new_kws))
                            (set_name_description edited_name edited_description c))
                       (companies s)) s in
                with_editing None
                  (with_session (emit Rerun (save_companies s1))
                     (notify (OkCompanyUpdated edited_name) p1))
          end
      end
  end.

(** [sep.join(l)] *)
Fixpoint join (sep : string) (l : list string) : string :=
  match l with
  | [] => EmptyString
  | [x] => x
  | x :: r => (x ++ sep ++ join sep r)%string
  end.

(** [s[:n]] *)
Fixpoint take (n : nat) (s : string) : string :=
  match n, s with
  | O, _ => EmptyString
  | S _, EmptyString => EmptyString
  | S k, String c r => String c (take k r)
  end.

(** Lines 201-203 *)
Definition keywords_display (c : company) : string :=
  let d := join ", " (c_keywords c) in
  if (70 <? String.length d)%nat then (take 70 d ++ "...")%string else d.

(** Lines 205-206: the caption of the description, when there is one. *)
Definition description_caption (c : company) : option string :=
  if PyStr.truthy (c_description c)
  then Some ("Desc: " ++ take 50 (c_description c)
             ++ (if (50 <? String.length (c_description c))%nat then "..." else ""))%string
  else None.

(** Line 426 *)
Definition all_visible_are_selected (visible : list alert) (sel : list (string * bool))
  : bool :=
  forallb (fun a => dict_get (a_id a) sel) visible.

(** [for alert_disp in alerts_to_display: selected_alerts[alert_disp['id']] = v] *)
Definition select_each (v : bool) (visible : list alert) (sel : list (string * bool))
  : list (string * bool) :=
  fold_left (fun d alert_disp => dict_set (a_id alert_disp) v d) visible sel.

(** Lines 420-437: the checkbox "Select / Deselect All Visible Alerts",
    which is [checked] or not, over the displayed alerts [visible]. *)
Definition select_all_visible (checked : bool) (visible : list alert) (s : session)
  : session :=
  match visible with
  | [] => s
  | _ :: _ =>
      let all_selected := all_visible_are_selected visible (selected_alerts s) in
      if checked then
        if negb all_selected
        then emit Rerun (set_selected (select_each true visible (selected_alerts s)) s)
        else s
      else
        if all_selected
        then emit Rerun (set_selected (select_each false visible (selected_alerts s)) s)
        else s
  end.

(** Line 470 *)
Definition original_alert_index (alert_id : string) (al : list alert) : option nat :=
  find_index (fun original_alert => String.eqb (a_id original_alert) alert_id) al.

(** Line 523 *)
Definition status_options_individual : list string :=
  ["Open"; "In Progress"; "Complete"; "False Positive"]%string.

(** Lines 524-531: what the select box of an alert gives when the user
    does not touch it, [options[current_status_index_individual]]. *)
Definition selectbox_default (status : string) : string :=
  let current_status_index_individual :=
    match find_index (String.eqb status) status_options_individual with
    | Some i => i
    | None => O
    end in
  nth current_status_index_individual status_options_individual "Open"%string.

(** Lines 533-537: the select box of the displayed alert [alert] gives
    [new_status_individual]. *)
Definition update_status_individual (alert : alert) (new_status_individual : string)
           (p : page) : page :=
  let s := page_session p in
  match original_alert_index (a_id alert) (alerts s) with
  | None => p
  | Some idx =>
      match nth_error (alerts s) idx with
      | None => p
      | Some original =>
          if negb (String.eqb new_status_individual (a_status original)) then
            let s1 := set_alerts (update_at idx (set_status new_status_individual) (alerts s)) s in
            notify (OkStatusUpdated (display_victim_name (a_api_data alert))
                                    new_status_individual)
                   (with_session (emit Rerun (save_alerts s1)) p)
          else p
      end
  end.

(** Lines 539-545: the button "Delete Alert" of the displayed alert
    [alert]. *)
Definition delete_alert (alert : alert) (p : page) : page :=
  let s := page_session p in
  match original_alert_index (a_id alert) (alerts s) with
  | None => p
  | Some idx =>
      let s1 :=
        if dict_has (a_id alert) (selected_alerts s)
        then set_selected (dict_del (a_id alert) (selected_alerts s)) s
        else s in
      let s2 := set_alerts (pop idx (alerts s1)) s1 in
      notify (OkAlertDeleted (display_victim_name (a_api_data alert)))
             (with_session (emit Rerun (save_alerts s2)) p)
  end.

(* ------------------------------------------------------------------ *)
(** ** A small installation, for the examples *)

Module Sample.

Definition uuid4 (n : nat) : string :=
  ("uuid-" ++ NilEmpty.string_of_uint (Nat.to_uint n))%string.

Definition now_iso (n : nat) : string :=
  ("2026-11-04T10:00:0" ++ NilEmpty.string_of_uint (Nat.to_uint n))%string.

(** 2026-11-04 *)
Definition today : Z := 739924.

Definition acme : company := mkCompany "c-acme" "Acme" "a supplier" ["acme"%string].

Definition globex : company := mkCompany "c-globex" "Globex" "" ["globex"%string].

Definition entry_with_link (link : option string) : entry :=
  mkEntry (Some "Acme Corp") (Some "Acme Corp breached") (Some "acme.example")
          (Some "2026-11-01") (Some (GangName "lockbit")) None link None.

Definition alert_of (id company_id company_name status : string) : alert :=
  mkAlert id company_id company_name "acme" "L1"
          (mkApiData "Acme Corp" "Acme Corp breached" "acme.example" "Acme Corp"
                     (Some "2026-11-01") "lockbit" "N/A" "L1" "N/A")
          status (Some "2026-11-04T09:00:00").

Definition empty_session : session := mkSession [acme] [] [] 0 0 [].

(** One alert on Acme, selected for a bulk action. *)
Definition triage_session : session :=
  mkSession [acme; globex] [alert_of "a-1" "c-acme" "Acme" "Open"]
            [("a-1"%string, true)] 2 1 [].

End Sample.

(* ------------------------------------------------------------------ *)
(** ** The vocabulary of the specification *)

Module Spec.
Import PyStr.
Local Open Scope list_scope.

(** [k] is a substring of [s]: [s] is some prefix, then [k], then some
    suffix. *)
Definition substring (k s : string) : Prop :=
  exists pre post : string, s = (pre ++ k ++ post)%string.

(** The order of [sorted] on strings. *)
Definition str_lt (a b : string) : Prop := String.ltb a b = true.

(** The reported date [d] is out of a window of [w] days that ends today:
    it is missing, empty or ["N/A"], it does not parse as YYYY-MM-DD, or it
    is a day before [today - w]. *)
Definition out_of_window (w today : Z) (d : option string) : Prop :=
  match d with
  | None => True
  | Some str =>
      str = "N/A"%string \/
      match PyDate.strptime str with
      | None => True
      | Some day => day < today - w
      end
  end.

(** The order of the result of a stable sort by [le_key] when the input
    was in the order [before]: by key, and in the input's order between
    elements whose keys are equal. *)
Definition key_then_before {A : Type} (le_key : A -> A -> bool) (before : A -> A -> Prop)
           (a b : A) : Prop :=
  le_key a b = true /\ (le_key b a = true -> before a b).

(** [a] is displayed before [b]: a lower status rank, or the same rank and
    a detection timestamp that is not earlier. *)
Definition shown_before (a b : alert) : Prop :=
  status_order (a_status a) < status_order (a_status b)
  \/ (status_order (a_status a) = status_order (a_status b)
      /\ String.leb (timestamp_key b) (timestamp_key a) = true).

(** The four statuses of the application. *)
Definition known_status (status : string) : Prop :=
  In status ["Open"; "In Progress"; "Complete"; "False Positive"]%string.

(** The triple that the pipeline looks for before it adds an alert. *)
Definition triple (a : alert) : string * string * string :=
  (a_company_id a, a_matched_keyword a, a_api_entry_id a).

(** The only messages of the three loops: a date that does not parse. *)
Definition is_date_warning (ev : event) : Prop :=
  match ev with
  | Show (WarnDateParse _ _) => True
  | _ => False
  end.

(** [b] is a later state of the loops than [a]: alerts were appended and
    counted, warnings were shown, identifiers and timestamps were drawn,
    and nothing else changed. *)
Definition advances (a b : session * nat) : Prop :=
  companies (fst b) = companies (fst a)
  /\ selected_alerts (fst b) = selected_alerts (fst a)
  /\ (exists added, alerts (fst b) = alerts (fst a) ++ added
                    /\ snd b = (snd a + length added)%nat)
  /\ (exists evs, trace (fst b) = trace (fst a) ++ evs /\ Forall is_date_warning evs).

(** The dedup key of a match on [e] in session [s]: the entry's [link]
    when the entry has the key, and otherwise the identifier that the
    generator gives next. *)
Definition dedup_key (uuid4 : nat -> string) (e : entry) (s : session) : string :=
  match e_link e with
  | Some link => link
  | None => uuid4 (uuids_drawn s)
  end.

(** The dedup key as the specification words it: the link when it is
    present and not empty, and else a new identifier. *)
Definition spec_dedup_key (uuid4 : nat -> string) (e : entry) (s : session) : string :=
  match e_link e with
  | Some link => if truthy link then link else uuid4 (uuids_drawn s)
  | None => uuid4 (uuids_drawn s)
  end.

(** [n] clicks on the fetch button, the feed answering [api_data] each
    time. *)
Fixpoint refetch (uuid4 now_iso : nat -> string) (window : option Z) (today : Z)
         (api_data : list entry) (n : nat) (s : session) : session :=
  match n with
  | O => s
  | S k =>
      refetch uuid4 now_iso window today api_data k
              (fetch_and_check uuid4 now_iso window today (Feed api_data) s)
  end.

(** No two alerts of [al] have the same triple. *)
Definition unique_triples (al : list alert) : Prop := NoDup (map triple al).

(** The collection [al] already holds the alert that a match of [keyword]
    of [c] on [e] asks for. *)
Definition covered (window : option Z) (today : Z) (al : list alert) (c : company) (keyword : string) (e : entry) : Prop :=
  forall s0, fst (entry_date_filter window today e s0) = Pass ->
             entry_matches keyword e = true ->
             exists link, e_link e = Some link
                          /\ alert_exists (c_id c) keyword link al = true.

Definition covered_keyword (window : option Z) (today : Z) (api_data : list entry)
           (al : list alert) (c : company) (keyword : string) : Prop :=
  Forall (covered window today al c keyword) api_data.

Definition covered_company (window : option Z) (today : Z) (api_data : list entry)
           (al : list alert) (c : company) : Prop :=
  Forall (covered_keyword window today api_data al c) (c_keywords c).

(** Every match of the companies' keywords on the feed has its alert. *)
Definition all_covered (window : option Z) (today : Z) (api_data : list entry)
           (s : session) : Prop :=
  Forall (covered_company window today api_data (alerts s)) (companies s).

(** The state of the loops did not move from [(al, n)]. *)
Definition still (al : list alert) (n : nat) (acc : session * nat) : Prop :=
  alerts (fst acc) = al /\ snd acc = n.

(** The events of a handler that took [s] to [s']. *)
Definition events_since (s s' : session) : list event :=
  skipn (length (trace s)) (trace s').

(** The failures of a fetch, as the specification classifies them, and
    the failures that are none of the four. *)
Inductive fetch_error :=
| HttpError | TimeoutError | TransportError | DecodeError | UnexpectedError.

(** The kind of an exception: the first class of the [except] clauses
    that it is an instance of. *)
Definition classify (e : exception) : fetch_error :=
  if is_HTTPError e then HttpError
  else if is_Timeout e then TimeoutError
  else if is_RequestException e then TransportError
  else if is_JSONDecodeError e then DecodeError
  else UnexpectedError.

(** The message that tells the user of the failure [err]. *)
Definition reports (err : fetch_error) (m : message) : Prop :=
  match err, m with
  | HttpError, ErrHttp _ _ _ => True
  | TimeoutError, ErrTimeout => True
  | TransportError, ErrRequest _ => True
  | DecodeError, ErrJsonDecode _ _ _ => True
  | UnexpectedError, ErrUnexpected _ => True
  | _, _ => False
  end.

(** [a'] is [a] with its status set to [status] when its id is one of
    [ids], and [a] itself otherwise. *)
Definition updated_from (ids : list string) (status : string) (a a' : alert) : Prop :=
  a' = set_status (a_status a') a
  /\ (In (a_id a) ids -> a_status a' = status)
  /\ (~ In (a_id a) ids -> a' = a).

(** The alerts of [al] whose id is one of [ids]. *)
Definition requested (ids : list string) (al : list alert) : list alert :=
  filter (fun a => mem (a_id a) ids) al.

(** The keyword entries as they were typed and uploaded: the pieces of the
    comma-separated text, then the cells of the first column of the file. *)
Definition raw_keywords (keywords_str : string) (uploaded_file : option csv_upload)
  : list string :=
  split "," keywords_str
  ++ match uploaded_file with
     | Some (CsvFirstColumn cells) => cells
     | _ => []
     end.

(** [k] is a keyword of the entries [raws]: an entry that is not blank,
    trimmed and lower-cased. *)
Definition keyword_of (raws : list string) (k : string) : Prop :=
  exists raw, In raw raws /\ strip raw <> EmptyString /\ k = lower (strip raw).

(** [name] is the name of a company of [cs], up to case. *)
Definition name_collides (name : string) (cs : list company) : Prop :=
  exists c, In c cs /\ lower (c_name c) = lower name.

(** The three messages that reject the form. *)
Definition validation_error (m : message) : Prop :=
  match m with
  | ErrCompanyNameRequired | ErrNoKeyword | WarnCompanyExists _ => True
  | _ => False
  end.

(** The event is a save of the companies file. *)
Definition saves_companies (ev : event) : Prop :=
  match ev with SaveCompanies _ => True | _ => False end.

(** *** The vocabulary of the other handlers *)

(** No two companies have the same name up to case. *)
Definition names_unique (cs : list company) : Prop :=
  NoDup (map (fun c => lower (c_name c)) cs).

(** No two companies have the same id. *)
Definition ids_unique (cs : list company) : Prop := NoDup (map c_id cs).

(** A keyword as the forms store it: not empty, lower-cased, trimmed. *)
Definition normalised (k : string) : Prop :=
  k <> EmptyString /\ lower k = k /\ strip k = k.

(** The keywords of [c] are in strictly increasing order and normalised. *)
Definition keywords_ok (c : company) : Prop :=
  StronglySorted str_lt (c_keywords c) /\ Forall normalised (c_keywords c).

(** The reported date [d] is within the window, if there is one. *)
Definition in_window (window : option Z) (today : Z) (d : option string) : Prop :=
  match window with
  | None => True
  | Some w => ~ out_of_window w today d
  end.

(** The choice [filter] of a select box of the alert list lets [value]
    through. *)
Definition chosen (filter value : string) : Prop :=
  filter = "All"%string \/ value = filter.

(** [a] is an alert as the pipeline makes one: for a company of [cs], one
    of its keywords and an entry of [feed] that the keyword matches and
    the window lets through. *)
Definition from_match (window : option Z) (today : Z) (cs : list company)
           (feed : list entry) (a : alert) : Prop :=
  exists c keyword e,
    In c cs /\ In keyword (c_keywords c) /\ In e feed
    /\ entry_matches keyword e = true
    /\ in_window window today (e_date e)
    /\ a_company_id a = c_id c
    /\ a_company_name a = c_name c
    /\ a_matched_keyword a = keyword
    /\ a_status a = "Open"%string
    /\ ad_date (a_api_data a) = Some (get_or (e_date e) "N/A")
    /\ group_name (a_api_data a) <> EmptyString.

(** Every alert is on a company of the registry. *)
Definition alerts_have_company (s : session) : Prop :=
  forall a, In a (alerts s) -> exists c, In c (companies s) /\ c_id c = a_company_id a.

(** The notices of a handler that took [p] to [p']. *)
Definition notices_since (p p' : page) : list notice :=
  skipn (length (notices p)) (notices p').

(** The keys of a dict are distinct. *)
Definition keys_unique (sel : list (string * bool)) : Prop := NoDup (map fst sel).

(** No two alerts have the same id. *)
Definition alert_ids_unique (al : list alert) : Prop := NoDup (map a_id al).

(** The loops of the pipeline, started in [s0] with the companies [cs]
    and the feed [feed], have appended alerts of matches only. *)
Definition grown (window : option Z) (today : Z) (feed : list entry)
           (cs : list company) (s0 : session) (acc : session * nat) : Prop :=
  exists added, alerts (fst acc) = alerts s0 ++ added
                /\ Forall (from_match window today cs feed) added.

(** The collection has no two alerts with one triple and no two alerts
    with one id. *)
Definition collection_ok (al : list alert) : Prop :=
  unique_triples al /\ alert_ids_unique al.

(** The loops of the pipeline, started in [s0], have given the alerts
    that they appended identifiers of the generator drawn since, each
    later than the one before. *)
Definition drawn (uuid4 : nat -> string) (s0 : session) (acc : session * nat) : Prop :=
  exists idxs,
    map a_id (alerts (fst acc)) = map a_id (alerts s0) ++ map uuid4 idxs
    /\ Forall (fun i => (uuids_drawn s0 <= i < uuids_drawn (fst acc))%nat) idxs
    /\ StronglySorted Nat.lt idxs
    /\ (uuids_drawn s0 <= uuids_drawn (fst acc))%nat.

End Spec.

(* ------------------------------------------------------------------ *)
(** ** Facts about strings *)

Module PyStrFacts.
Import PyStr Spec.

Lemma startswith_spec (k s : string) :
  startswith k s = true <-> exists post, s = (k ++ post)%string.
Proof.
  revert s; induction k as [|a k IH]; intros s; simpl.
  - split; [intros _; now exists s | reflexivity].
  - destruct s as [|b s].
    + split; [discriminate | intros [post H]; discriminate].
    + rewrite andb_true_iff, Ascii.eqb_eq, IH. split.
      * intros [-> [post ->]]. now exists post.
      * intros [post H]. injection H as -> ->. split; [reflexivity | now exists post].
Qed.

Lemma contains_spec (k s : string) : contains k s = true <-> substring k s.
Proof.
  induction s as [|b s IH].
  - simpl. rewrite orb_false_r, startswith_spec. split.
    + intros [post H]. now exists EmptyString, post.
    + intros [[|c pre] [post H]]; [now exists post | discriminate].
  - cbn [contains]. rewrite orb_true_iff, startswith_spec, IH. split.
    + intros [[post H] | [pre [post H]]].
      * now exists EmptyString, post.
      * exists (String b pre), post. simpl. now rewrite H.
    + intros [[|c pre] [post H]].
      * left. now exists post.
      * right. simpl in H. injection H as _ H. now exists pre, post.
Qed.

Lemma lower_empty (s : string) : lower s = EmptyString <-> s = EmptyString.
Proof. destruct s; simpl; split; congruence. Qed.

Lemma truthy_true (s : string) : truthy s = true <-> s <> EmptyString.
Proof. destruct s; simpl; split; congruence. Qed.

Lemma truthy_false (s : string) : truthy s = false <-> s = EmptyString.
Proof. destruct s; simpl; split; congruence. Qed.

Lemma mem_spec (a : string) (l : list string) : mem a l = true <-> In a l.
Proof.
  unfold mem. rewrite existsb_exists. split.
  - intros [x [Hx He]]. apply String.eqb_eq in He. now subst.
  - intros H. exists a. split; [assumption | apply String.eqb_refl].
Qed.

Lemma leb_false_ltb (a b : string) : String.leb a b = false -> String.ltb b a = true.
Proof.
  unfold String.leb, String.ltb. rewrite (String.compare_antisym b a).
  destruct (String.compare a b); simpl; congruence.
Qed.

Lemma leb_neq_ltb (a b : string) : String.leb a b = true -> a <> b -> String.ltb a b = true.
Proof.
  unfold String.leb, String.ltb. destruct (String.compare a b) eqn:E; try congruence.
  apply String.compare_eq_iff in E. congruence.
Qed.

Lemma ascii_compare_lt_trans (a b c : ascii) :
  Ascii.compare a b = Lt -> Ascii.compare b c = Lt -> Ascii.compare a c = Lt.
Proof. unfold Ascii.compare. rewrite !N.compare_lt_iff. apply N.lt_trans. Qed.

Lemma ascii_compare_refl (a : ascii) : Ascii.compare a a = Eq.
Proof. unfold Ascii.compare. apply N.compare_refl. Qed.

Lemma compare_lt_trans (a b c : string) :
  String.compare a b = Lt -> String.compare b c = Lt -> String.compare a c = Lt.
Proof.
  revert b c; induction a as [|x a IH]; intros [|y b] [|z c]; simpl; try congruence.
  destruct (Ascii.compare x y) eqn:Exy; try congruence;
    destruct (Ascii.compare y z) eqn:Eyz; try congruence; intros H1 H2.
  - apply Ascii.compare_eq_iff in Exy, Eyz. subst. rewrite ascii_compare_refl. eauto.
  - apply Ascii.compare_eq_iff in Exy. subst. now rewrite Eyz.
  - apply Ascii.compare_eq_iff in Eyz. subst. now rewrite Exy.
  - now rewrite (ascii_compare_lt_trans _ _ _ Exy Eyz).
Qed.

Lemma compare_refl (a : string) : String.compare a a = Eq.
Proof. induction a as [|x a IH]; simpl; [reflexivity | now rewrite ascii_compare_refl]. Qed.

Lemma ltb_trans (a b c : string) :
  String.ltb a b = true -> String.ltb b c = true -> String.ltb a c = true.
Proof.
  unfold String.ltb. intros H1 H2.
  destruct (String.compare a b) eqn:E1; try discriminate.
  destruct (String.compare b c) eqn:E2; try discriminate.
  now rewrite (compare_lt_trans _ _ _ E1 E2).
Qed.

Lemma leb_trans (a b c : string) :
  String.leb a b = true -> String.leb b c = true -> String.leb a c = true.
Proof.
  unfold String.leb. intros H1 H2.
  destruct (String.compare a b) eqn:E1; try discriminate;
    destruct (String.compare b c) eqn:E2; try discriminate.
  - apply String.compare_eq_iff in E1, E2. subst. now rewrite compare_refl.
  - apply String.compare_eq_iff in E1. subst. now rewrite E2.
  - apply String.compare_eq_iff in E2. subst. now rewrite E1.
  - now rewrite (compare_lt_trans _ _ _ E1 E2).
Qed.

Lemma ltb_irrefl (a : string) : String.ltb a a = false.
Proof. unfold String.ltb. now rewrite compare_refl. Qed.

(** [sorted(list(set(l)))] has the elements of [l], each once, in strictly
    increasing order. *)
Lemma insert_sorted_In (a x : string) (l : list string) :
  In x (insert_sorted a l) <-> x = a \/ In x l.
Proof.
  induction l as [|b l IH]; simpl.
  - intuition congruence.
  - destruct (String.leb a b); simpl; rewrite ?IH; intuition congruence.
Qed.

Lemma sorted_set_In (x : string) (l : list string) : In x (sorted_set l) <-> In x l.
Proof.
  revert x; induction l as [|a l IH]; intros x; simpl; [reflexivity|].
  destruct (mem a (sorted_set l)) eqn:E.
  - apply mem_spec in E. rewrite IH in *. split; [tauto|]. intros [<-|H]; assumption.
  - rewrite insert_sorted_In, IH. intuition congruence.
Qed.

Lemma insert_sorted_sorted (a : string) (l : list string) :
  StronglySorted str_lt l -> ~ In a l -> StronglySorted str_lt (insert_sorted a l).
Proof.
  induction l as [|b l IH]; simpl; intros Hs Hn.
  - repeat constructor.
  - inversion Hs as [|? ? Hs' Hb]; subst.
    destruct (String.leb a b) eqn:E.
    + assert (Hab : str_lt a b) by (apply leb_neq_ltb; [assumption | intros ->; apply Hn; now left]).
      constructor; [assumption|]. constructor; [assumption|].
      eapply Forall_impl; [|exact Hb]. intros c Hc. exact (ltb_trans _ _ _ Hab Hc).
    + constructor; [apply IH; tauto|].
      apply Forall_forall. intros x Hx. apply insert_sorted_In in Hx as [->|Hx].
      * now apply leb_false_ltb.
      * rewrite Forall_forall in Hb. now apply Hb.
Qed.

Lemma sorted_set_sorted (l : list string) : StronglySorted str_lt (sorted_set l).
Proof.
  induction l as [|a l IH]; simpl; [constructor|].
  destruct (mem a (sorted_set l)) eqn:E; [assumption|].
  apply insert_sorted_sorted; [assumption|].
  rewrite <- mem_spec. congruence.
Qed.

End PyStrFacts.

(* ------------------------------------------------------------------ *)
(** ** The match test *)

Module MatchTest.
Import PyStr Spec PyStrFacts.

Lemma match_in_field (keyword : string) (field : option string) :
  match_in keyword (lower (get_or field "")) = true <->
  exists f, field = Some f /\ f <> EmptyString /\ substring keyword (lower f).
Proof.
  unfold match_in. destruct field as [f|]; simpl.
  - destruct (truthy (lower f)) eqn:E.
    + apply truthy_true in E. rewrite lower_empty in E. rewrite contains_spec. split.
      * intros H. now exists f.
      * intros [f' [[= <-] [_ H]]]. exact H.
    + apply truthy_false in E. rewrite lower_empty in E. split; [discriminate|].
      intros [f' [[= <-] [H _]]]. contradiction.
  - split; [discriminate | intros [f [H _]]; discriminate].
Qed.

(** C5.  The match test of the pipeline succeeds exactly when the keyword
    is a substring of the lower-cased [victim], [title] or [domain] of the
    entry, for a field that is present and not empty: an absent or empty
    field never gives a match. *)
Theorem entry_matches_iff (keyword : string) (e : entry) :
  entry_matches keyword e = true <->
  exists f, In (Some f) [e_victim e; e_title e; e_domain e]
            /\ f <> EmptyString
            /\ substring keyword (lower f).
Proof.
  unfold entry_matches. rewrite !orb_true_iff, !match_in_field. split.
  - intros [[[f [H1 H2]] | [f [H1 H2]]] | [f [H1 H2]]]; exists f; (split; [|exact H2]);
      rewrite <- H1; simpl; auto.
  - intros [f [Hin H]]. simpl in Hin.
    destruct Hin as [Hin | [Hin | [Hin | []]]]; [left; left | left; right | right];
      exists f; split; auto.
Qed.

End MatchTest.

(* ------------------------------------------------------------------ *)
(** ** The recency window *)

Module Recency.
Import PyStr Spec PyStrFacts.

Lemma strptime_empty : PyDate.strptime "" = None.
Proof. reflexivity. Qed.

Lemma strptime_na : PyDate.strptime "N/A" = None.
Proof. reflexivity. Qed.

Lemma entry_date_filter_bounded (w today : Z) (e : entry) (s : session) :
  fst (entry_date_filter (Some w) today e s) = Skip <-> out_of_window w today (e_date e).
Proof.
  unfold entry_date_filter, out_of_window. destruct (e_date e) as [str|]; simpl; [|tauto].
  destruct (truthy str) eqn:Et; simpl.
  - destruct (String.eqb str "N/A") eqn:En.
    + apply String.eqb_eq in En. simpl. tauto.
    + apply String.eqb_neq in En. destruct (PyDate.strptime str) as [day|]; simpl.
      * destruct (day <? today - w) eqn:El; simpl.
        -- apply Z.ltb_lt in El. tauto.
        -- apply Z.ltb_ge in El. split; [discriminate|]. intros [H|H]; [contradiction | lia].
      * tauto.
  - apply truthy_false in Et. subst. simpl. tauto.
Qed.

Lemma alert_date_filter_bounded (w today : Z) (a : alert) :
  alert_date_filter (Some w) today a = Skip <-> out_of_window w today (ad_date (a_api_data a)).
Proof.
  unfold alert_date_filter, out_of_window.
  destruct (ad_date (a_api_data a)) as [str|]; [|tauto].
  destruct (truthy str) eqn:Et; simpl.
  - destruct (String.eqb str "N/A") eqn:En.
    + apply String.eqb_eq in En. tauto.
    + apply String.eqb_neq in En. destruct (PyDate.strptime str) as [day|].
      * destruct (day <? today - w) eqn:El.
        -- apply Z.ltb_lt in El. tauto.
        -- apply Z.ltb_ge in El. split; [discriminate|]. intros [H|H]; [contradiction | lia].
      * tauto.
  - apply truthy_false in Et. subst. simpl. tauto.
Qed.

Lemma entry_date_filter_unbounded (today : Z) (e : entry) (s : session) :
  fst (entry_date_filter None today e s) = Pass.
Proof.
  unfold entry_date_filter. destruct (e_date e) as [str|]; [|reflexivity].
  destruct (negb (truthy str) || String.eqb str "N/A"); [reflexivity|].
  destruct (PyDate.strptime str); reflexivity.
Qed.

Section Skipped.
Variable uuid4 : nat -> string.
Variable now_iso : nat -> string.

(** An entry that the date filter skips adds no alert. *)
Lemma skipped_entry_adds_nothing window today c keyword s n e :
  fst (entry_date_filter window today e s) = Skip ->
  alerts (fst (process_entry uuid4 now_iso window today c keyword (s, n) e)) = alerts s
  /\ snd (process_entry uuid4 now_iso window today c keyword (s, n) e) = n.
Proof.
  unfold process_entry. intros H.
  destruct (entry_date_filter window today e s) as [v s1] eqn:E. simpl in H. subst v.
  simpl. split; [|reflexivity].
  unfold entry_date_filter in E.
  destruct (e_date e) as [str|]; [|now inversion E].
  destruct (negb (truthy str) || String.eqb str "N/A"); [now inversion E|].
  destruct (PyDate.strptime str) as [day|].
  - destruct window as [w|]; [|discriminate]. destruct (day <? today - w); now inversion E.
  - now inversion E.
Qed.
End Skipped.

(** C4.  Under a window of [w] days, the date filter of the fetch pipeline
    and the recency filter of the alert list skip exactly the entries and
    alerts whose reported date is missing, ["N/A"], unparseable as
    YYYY-MM-DD or before [today - w]: a skipped entry adds no alert, a
    skipped alert is not displayed, and a date that parses to [today - w]
    or later is never skipped.  With no window (All Time) neither filter
    skips anything. *)
Theorem recency_window_filter (uuid4 now_iso : nat -> string) (w today : Z) :
  (forall e s, fst (entry_date_filter (Some w) today e s) = Skip
               <-> out_of_window w today (e_date e))
  /\ (forall a, alert_date_filter (Some w) today a = Skip
                <-> out_of_window w today (ad_date (a_api_data a)))
  /\ (forall e s c keyword n,
         out_of_window w today (e_date e) ->
         alerts (fst (process_entry uuid4 now_iso (Some w) today c keyword (s, n) e)) = alerts s
         /\ snd (process_entry uuid4 now_iso (Some w) today c keyword (s, n) e) = n)
  /\ (forall a company status,
         out_of_window w today (ad_date (a_api_data a)) ->
         displayed (Some w) today company status a = false)
  /\ (forall str day, PyDate.strptime str = Some day -> today - w <= day ->
         (forall e s, e_date e = Some str -> fst (entry_date_filter (Some w) today e s) = Pass)
         /\ (forall a, ad_date (a_api_data a) = Some str ->
                       alert_date_filter (Some w) today a = Pass))
  /\ (forall e s, fst (entry_date_filter None today e s) = Pass)
  /\ (forall a, alert_date_filter None today a = Pass).
Proof.
  split; [intros; apply entry_date_filter_bounded|].
  split; [intros; apply alert_date_filter_bounded|].
  split.
  { intros e s c keyword n H. apply skipped_entry_adds_nothing.
    now apply entry_date_filter_bounded. }
  split.
  { intros a company status H. unfold displayed.
    apply alert_date_filter_bounded in H. now rewrite H. }
  split.
  { intros str day Hp Hd. split.
    - intros e s He.
      destruct (fst (entry_date_filter (Some w) today e s)) eqn:E; [|reflexivity].
      apply entry_date_filter_bounded in E. rewrite He in E. simpl in E. rewrite Hp in E.
      destruct E as [->|E]; [discriminate | lia].
    - intros a Ha.
      destruct (alert_date_filter (Some w) today a) eqn:E; [|reflexivity].
      apply alert_date_filter_bounded in E. rewrite Ha in E. simpl in E. rewrite Hp in E.
      destruct E as [->|E]; [discriminate | lia]. }
  split; [intros; apply entry_date_filter_unbounded | reflexivity].
Qed.

End Recency.

(* ------------------------------------------------------------------ *)
(** ** The stable sort *)

Section SortedFacts.
Import Spec.
Context {A : Type} (le_key : A -> A -> bool).

Lemma insert_stable_perm (a : A) (l : list A) : Permutation (a :: l) (insert_stable le_key a l).
Proof.
  induction l as [|b l IH]; simpl; [reflexivity|].
  destruct (le_key a b); [reflexivity|].
  rewrite perm_swap. now constructor.
Qed.

Lemma py_sorted_perm (l : list A) : Permutation l (py_sorted le_key l).
Proof.
  induction l as [|a l IH]; simpl; [constructor|].
  rewrite <- insert_stable_perm. now constructor.
Qed.

Hypothesis le_total : forall a b, le_key a b = true \/ le_key b a = true.
Hypothesis le_trans : forall a b c, le_key a b = true -> le_key b c = true -> le_key a c = true.

(** The order of the result when the input was in the order [before]:
    by key, and in the input's order between elements whose keys are
    equal. *)
Variable before : A -> A -> Prop.

Local Abbreviation key_then_before := (Spec.key_then_before le_key before).

Lemma insert_stable_sorted (a : A) (l : list A) :
  Forall (before a) l ->
  StronglySorted key_then_before l ->
  StronglySorted key_then_before (insert_stable le_key a l).
Proof.
  induction l as [|b l IH]; simpl; intros Ha Hs.
  - repeat constructor.
  - inversion Hs as [|? ? Hs' Hb]; subst. inversion Ha as [|? ? Hab Ha']; subst.
    destruct (le_key a b) eqn:E.
    + constructor; [assumption|]. constructor; [split; auto|].
      rewrite Forall_forall in *. intros c Hc. split.
      * apply le_trans with b; [assumption | apply Hb, Hc].
      * intros _. now apply Ha'.
    + constructor; [now apply IH|].
      apply Forall_forall. intros c Hc.
      apply (Permutation_in _ (Permutation_sym (insert_stable_perm a l))) in Hc.
      destruct Hc as [<-|Hc].
      * split; [destruct (le_total a b); congruence | congruence].
      * rewrite Forall_forall in Hb. now apply Hb.
Qed.

Lemma py_sorted_stable (l : list A) :
  StronglySorted before l -> StronglySorted key_then_before (py_sorted le_key l).
Proof.
  induction l as [|a l IH]; simpl; intros Hs; [constructor|].
  inversion Hs as [|? ? Hs' Ha]; subst.
  apply insert_stable_sorted; [|now apply IH].
  rewrite Forall_forall in *. intros c Hc. apply Ha.
  now apply (Permutation_in _ (Permutation_sym (py_sorted_perm l))).
Qed.
End SortedFacts.

Lemma StronglySorted_weaken {A : Type} (R S : A -> A -> Prop) (l : list A) :
  (forall a b, R a b -> S a b) -> StronglySorted R l -> StronglySorted S l.
Proof.
  intros H Hs. induction Hs as [|a l Hs IH Ha]; constructor; [assumption|].
  eapply Forall_impl; [apply H | exact Ha].
Qed.

Module AlertOrder.
Import PyStr Spec PyStrFacts.

Lemma status_order_unknown (status : string) :
  ~ known_status status -> status_order status = 99.
Proof.
  unfold known_status, status_order. intros H.
  repeat match goal with
         | |- context [String.eqb ?x ?y] =>
             destruct (String.eqb_spec x y); [exfalso; apply H; subst; simpl; tauto|]
         end.
  reflexivity.
Qed.

(** C6.  The displayed order is a permutation of the collection, ordered
    first by status rank, where Open < In Progress < Complete < False
    Positive and every other status ranks after the four, and within one
    rank by detection timestamp, latest first. *)
Theorem sorted_alerts_all_spec (al : list alert) :
  Permutation al (sorted_alerts_all al)
  /\ StronglySorted shown_before (sorted_alerts_all al)
  /\ (status_order "Open" < status_order "In Progress"
      /\ status_order "In Progress" < status_order "Complete"
      /\ status_order "Complete" < status_order "False Positive")
  /\ (forall status, ~ known_status status ->
                     status_order "False Positive" < status_order status).
Proof.
  split; [|split; [|split]].
  - unfold sorted_alerts_all.
    etransitivity; [apply py_sorted_perm | apply py_sorted_perm].
  - unfold sorted_alerts_all.
    set (by_time := fun a b : alert => String.leb (timestamp_key b) (timestamp_key a)).
    set (by_rank := fun a b : alert => status_order (a_status a) <=? status_order (a_status b)).
    assert (Htime : StronglySorted (fun a b => by_time a b = true) (py_sorted by_time al)).
    { eapply StronglySorted_weaken; [|apply (py_sorted_stable by_time) with (before := fun _ _ => True)].
      - intros a b [H _]. exact H.
      - intros a b. apply String.leb_total.
      - intros a b c H1 H2. unfold by_time in *. eapply leb_trans; eassumption.
      - clear. induction al; constructor; [assumption|]. now apply Forall_forall. }
    eapply StronglySorted_weaken; [|apply (py_sorted_stable by_rank); [| |exact Htime]].
    + intros a b [H1 H2]. unfold by_rank, shown_before in *.
      apply Z.leb_le in H1.
      destruct (Z.eq_dec (status_order (a_status a)) (status_order (a_status b))) as [E|E].
      * right. split; [assumption|]. apply H2. apply Z.leb_le. lia.
      * left. lia.
    + intros a b. unfold by_rank. rewrite !Z.leb_le. lia.
    + intros a b c. unfold by_rank. rewrite !Z.leb_le. lia.
  - vm_compute. repeat split; reflexivity.
  - intros status H. rewrite (status_order_unknown status H). reflexivity.
Qed.

End AlertOrder.

(* ------------------------------------------------------------------ *)
(** ** The matching pipeline: what one pass over the feed does *)

Module Pipeline.
Import PyStr Spec PyStrFacts.
Local Open Scope list_scope.

Lemma advances_intro s n s' n' (added : list alert) (evs : list event) :
  companies s' = companies s ->
  selected_alerts s' = selected_alerts s ->
  alerts s' = alerts s ++ added ->
  n' = (n + length added)%nat ->
  trace s' = trace s ++ evs ->
  Forall is_date_warning evs ->
  advances (s, n) (s', n').
Proof. unfold advances; simpl; eauto 10. Qed.

Lemma advances_refl (a : session * nat) : advances a a.
Proof.
  repeat split; try reflexivity.
  - exists []. now rewrite app_nil_r, Nat.add_0_r.
  - exists []. now rewrite app_nil_r.
Qed.

Lemma advances_trans (a b c : session * nat) : advances a b -> advances b c -> advances a c.
Proof.
  intros (Hc1 & Hs1 & (ad1 & Ha1 & Hn1) & (ev1 & He1 & Hw1))
         (Hc2 & Hs2 & (ad2 & Ha2 & Hn2) & (ev2 & He2 & Hw2)).
  repeat split; try congruence.
  - exists (ad1 ++ ad2). rewrite Ha2, Ha1, Hn2, Hn1, <- app_assoc, length_app. split; [reflexivity | lia].
  - exists (ev1 ++ ev2). rewrite He2, He1, <- app_assoc. split; [reflexivity|].
    apply Forall_app. now split.
Qed.

Lemma fold_left_invariant {A B : Type} (f : A -> B -> A) (P : A -> Prop) (l : list B) :
  (forall a b, In b l -> P a -> P (f a b)) -> forall a, P a -> P (fold_left f l a).
Proof.
  induction l as [|b l IH]; simpl; intros H a Ha; [assumption|].
  apply IH; [intros; apply H; auto | apply H; auto].
Qed.

Lemma same_triple_spec cid kw key (a : alert) :
  same_triple cid kw key a = true <-> triple a = (cid, kw, key).
Proof.
  unfold same_triple, triple. rewrite !andb_true_iff, !String.eqb_eq. split.
  - intros [[-> ->] ->]. reflexivity.
  - intros [= -> -> ->]. auto.
Qed.

Lemma alert_exists_spec cid kw key (al : list alert) :
  alert_exists cid kw key al = true <-> In (cid, kw, key) (map triple al).
Proof.
  unfold alert_exists. rewrite existsb_exists, in_map_iff. split.
  - intros [a [Hin H]]. exists a. now rewrite <- same_triple_spec.
  - intros [a [H Hin]]. exists a. now rewrite same_triple_spec.
Qed.

Lemma alert_exists_app cid kw key (al added : list alert) :
  alert_exists cid kw key al = true -> alert_exists cid kw key (al ++ added) = true.
Proof. unfold alert_exists. rewrite existsb_app. now intros ->. Qed.

(** The date filter changes the trace only, and its verdict does not
    depend on the session. *)
Lemma entry_date_filter_session window today e s :
  exists evs,
    snd (entry_date_filter window today e s)
    = mkSession (companies s) (alerts s) (selected_alerts s) (uuids_drawn s) (ticks s)
                (trace s ++ evs)
    /\ Forall is_date_warning evs.
Proof.
  unfold entry_date_filter.
  assert (Hs : exists evs,
             s = mkSession (companies s) (alerts s) (selected_alerts s) (uuids_drawn s)
                           (ticks s) (trace s ++ evs) /\ Forall is_date_warning evs).
  { exists []. rewrite app_nil_r. destruct s; split; [reflexivity | constructor]. }
  destruct (e_date e) as [str|]; [|exact Hs].
  destruct (negb (truthy str) || String.eqb str "N/A"); [exact Hs|].
  destruct (PyDate.strptime str) as [day|].
  - destruct window as [w|]; [destruct (day <? today - w)|]; exact Hs.
  - eexists. split; [reflexivity|]. repeat constructor.
Qed.

Lemma entry_date_filter_verdict window today e s s' :
  fst (entry_date_filter window today e s) = fst (entry_date_filter window today e s').
Proof.
  unfold entry_date_filter.
  destruct (e_date e) as [str|]; [|reflexivity].
  destruct (negb (truthy str) || String.eqb str "N/A"); [reflexivity|].
  destruct (PyDate.strptime str) as [day|]; [|reflexivity].
  destruct window as [w|]; [destruct (day <? today - w)|]; reflexivity.
Qed.

Section Loops.
Variable uuid4 : nat -> string.
Variable now_iso : nat -> string.
Variables (window : option Z) (today : Z).

Local Abbreviation dedup_key := (Spec.dedup_key uuid4).

(** One turn of the innermost loop either leaves the collection and the
    count as they are, or appends one alert whose triple no alert had. *)
Lemma process_entry_cases c keyword s n e :
  let r := process_entry uuid4 now_iso window today c keyword (s, n) e in
  (alerts (fst r) = alerts s /\ snd r = n
   /\ (fst (entry_date_filter window today e s) = Pass ->
       entry_matches keyword e = true ->
       alert_exists (c_id c) keyword (dedup_key e s) (alerts s) = true))
  \/ (fst (entry_date_filter window today e s) = Pass
      /\ entry_matches keyword e = true
      /\ alert_exists (c_id c) keyword (dedup_key e s) (alerts s) = false
      /\ alerts (fst r)
         = alerts s ++ [new_alert (uuid4 (S (uuids_drawn s))) (dedup_key e s)
                                  (now_iso (ticks s)) c keyword e]
      /\ snd r = S n).
Proof.
  unfold process_entry. cbv zeta.
  destruct (entry_date_filter_session window today e s) as (evs & Hs & _).
  destruct (entry_date_filter window today e s) as [v s1] eqn:E. simpl in Hs. subst s1.
  unfold entry_identifier_of, dedup_key, get_or. simpl.
  destruct v.
  - left. simpl. repeat split; discriminate.
  - destruct (entry_matches keyword e).
    + destruct (alert_exists (c_id c) keyword
                  match e_link e with Some s0 => s0 | None => uuid4 (uuids_drawn s) end
                  (alerts s)) eqn:Ex.
      * left. simpl. auto.
      * right. simpl. auto.
    + left. simpl. repeat split; discriminate.
Qed.

Lemma process_entry_advances c keyword acc e :
  advances acc (process_entry uuid4 now_iso window today c keyword acc e).
Proof.
  destruct acc as [s n]. unfold process_entry.
  destruct (entry_date_filter_session window today e s) as (evs & Hs & Hw).
  destruct (entry_date_filter window today e s) as [v s1] eqn:E. simpl in Hs. subst s1.
  destruct v.
  - apply advances_intro with (added := []) (evs := evs); simpl; auto using app_nil_r.
  - destruct (entry_matches keyword e).
    + unfold entry_identifier_of. cbv zeta.
      match goal with
      | |- context [alert_exists ?a ?b ?c ?d] => destruct (alert_exists a b c d)
      end.
      * apply advances_intro with (added := []) (evs := evs); simpl; auto using app_nil_r.
      * eapply advances_intro with (evs := evs); simpl; try reflexivity; auto.
        simpl. lia.
    + apply advances_intro with (added := []) (evs := evs); simpl; auto using app_nil_r.
Qed.

Lemma process_keyword_advances api_data c acc keyword :
  advances acc (process_keyword uuid4 now_iso window today api_data c acc keyword).
Proof.
  unfold process_keyword. apply fold_left_invariant; [|apply advances_refl].
  intros a e _ H. eapply advances_trans; [exact H | apply process_entry_advances].
Qed.

Lemma process_company_advances api_data acc c :
  advances acc (process_company uuid4 now_iso window today api_data acc c).
Proof.
  unfold process_company. apply fold_left_invariant; [|apply advances_refl].
  intros a kw _ H. eapply advances_trans; [exact H | apply process_keyword_advances].
Qed.

Lemma match_feed_advances api_data s :
  advances (s, O) (match_feed uuid4 now_iso window today api_data s).
Proof.
  unfold match_feed. apply fold_left_invariant; [|apply advances_refl].
  intros a c _ H. eapply advances_trans; [exact H | apply process_company_advances].
Qed.

End Loops.
End Pipeline.

(* ------------------------------------------------------------------ *)
(** ** The dedup key and the invariant of the alert collection *)

Module Dedup.
Import PyStr Spec PyStrFacts Pipeline.
Local Open Scope list_scope.

(** An entry whose [link] is the empty string gives an alert whose
    [api_entry_id] is the empty string, where the specification's key is
    the next identifier of the generator. *)
Lemma empty_link_is_the_dedup_key :
  let e := Sample.entry_with_link (Some ""%string) in
  let r := process_entry Sample.uuid4 Sample.now_iso (Some 30) Sample.today Sample.acme
                         "acme" (Sample.empty_session, O) e in
  map a_api_entry_id (alerts (fst r)) = [""%string]
  /\ spec_dedup_key Sample.uuid4 e Sample.empty_session = "uuid-0"%string
  /\ map a_api_entry_id (alerts (fst r)) <> [spec_dedup_key Sample.uuid4 e Sample.empty_session].
Proof. vm_compute. repeat split; discriminate. Qed.

Section Key.
Variable uuid4 : nat -> string.
Variable now_iso : nat -> string.

(** C2, amended.  When the pipeline materializes an alert for an entry,
    the alert's [api_entry_id] is the entry's [link] whenever the entry has
    that key, the empty string included, and the identifier that the
    generator gives next only when the key is absent. *)
Theorem api_entry_id_is_link_or_fresh window today c keyword s n e :
  snd (process_entry uuid4 now_iso window today c keyword (s, n) e) = S n ->
  exists a,
    alerts (fst (process_entry uuid4 now_iso window today c keyword (s, n) e))
    = alerts s ++ [a]
    /\ a_api_entry_id a = match e_link e with
                          | Some link => link
                          | None => uuid4 (uuids_drawn s)
                          end.
Proof.
  intros Hn.
  destruct (process_entry_cases uuid4 now_iso window today c keyword s n e)
    as [(_ & H & _) | (_ & _ & _ & H & _)].
  - rewrite H in Hn. lia.
  - eexists. split; [exact H | reflexivity].
Qed.

End Key.

Lemma api_entry_id_is_link_or_fresh_witness :
  exists a,
    alerts (fst (process_entry Sample.uuid4 Sample.now_iso (Some 30) Sample.today Sample.acme
                               "acme" (Sample.empty_session, O)
                               (Sample.entry_with_link (Some "L1"%string))))
    = alerts Sample.empty_session ++ [a]
    /\ a_api_entry_id a = "L1"%string.
Proof.
  apply (api_entry_id_is_link_or_fresh Sample.uuid4 Sample.now_iso (Some 30) Sample.today
           Sample.acme "acme" Sample.empty_session O (Sample.entry_with_link (Some "L1"%string))).
  vm_compute. reflexivity.
Defined.

End Dedup.

(* ------------------------------------------------------------------ *)
(** ** Fetching the same feed again *)

Module Refetch.
Import PyStr Spec PyStrFacts Pipeline.
Local Open Scope list_scope.

Lemma NoDup_snoc {A : Type} (l : list A) (x : A) : NoDup l -> ~ In x l -> NoDup (l ++ [x]).
Proof.
  intros Hl Hx. apply (Permutation_NoDup (l := x :: l)).
  - apply Permutation_cons_append.
  - now constructor.
Qed.

Section Runs.
Variable uuid4 : nat -> string.
Variable now_iso : nat -> string.
Variables (window : option Z) (today : Z) (api_data : list entry).

Local Abbreviation covered := (Spec.covered window today).
Local Abbreviation covered_keyword := (Spec.covered_keyword window today api_data).
Local Abbreviation covered_company := (Spec.covered_company window today api_data).
Local Abbreviation all_covered := (Spec.all_covered window today api_data).

Lemma process_entry_unique c keyword acc e :
  unique_triples (alerts (fst acc)) ->
  unique_triples (alerts (fst (process_entry uuid4 now_iso window today c keyword acc e))).
Proof.
  destruct acc as [s n]. intros H. change (unique_triples (alerts s)) in H.
  destruct (process_entry_cases uuid4 now_iso window today c keyword s n e)
    as [(Ha & _) | (_ & _ & Hx & Ha & _)]; rewrite Ha; [assumption|].
  unfold unique_triples. rewrite map_app. simpl. apply NoDup_snoc; [assumption|].
  change (triple (new_alert _ _ _ c keyword e)) with (c_id c, keyword, dedup_key uuid4 e s).
  rewrite <- alert_exists_spec. congruence.
Qed.

Lemma match_feed_unique s :
  unique_triples (alerts s) ->
  unique_triples (alerts (fst (match_feed uuid4 now_iso window today api_data s))).
Proof.
  intros H. unfold match_feed.
  apply (fold_left_invariant _ (fun acc => unique_triples (alerts (fst acc)))); [|exact H].
  intros a c _. unfold process_company.
  apply (fold_left_invariant _ (fun acc => unique_triples (alerts (fst acc)))).
  intros a' kw _. unfold process_keyword.
  apply (fold_left_invariant _ (fun acc => unique_triples (alerts (fst acc)))).
  intros a'' e _. apply process_entry_unique.
Qed.

(** What a click with an answering feed leaves in the session. *)
Lemma fetch_and_check_feed s :
  let r := match_feed uuid4 now_iso window today api_data
                      (emit (Show (OkFetched (length api_data))) s) in
  companies (fetch_and_check uuid4 now_iso window today (Feed api_data) s) = companies s
  /\ alerts (fetch_and_check uuid4 now_iso window today (Feed api_data) s) = alerts (fst r).
Proof.
  unfold fetch_and_check. destruct (companies s) as [|c0 cs] eqn:Ec.
  - unfold match_feed. simpl. rewrite Ec. simpl. auto.
  - cbv zeta.
    pose proof (match_feed_advances uuid4 now_iso window today api_data
                  (emit (Show (OkFetched (length api_data))) s)) as (Hc & _).
    destruct (match_feed uuid4 now_iso window today api_data
                         (emit (Show (OkFetched (length api_data))) s)) as [s2 n].
    simpl in *. destruct (0 <? n)%nat; simpl; rewrite Hc; auto.
Qed.

Lemma fetch_and_check_unique s :
  unique_triples (alerts s) ->
  unique_triples (alerts (fetch_and_check uuid4 now_iso window today (Feed api_data) s)).
Proof.
  intros H. destruct (fetch_and_check_feed s) as [_ ->].
  now apply match_feed_unique.
Qed.

(** *** A second pass over a feed whose entries have links *)

Lemma covered_app al added c keyword e :
  covered al c keyword e -> covered (al ++ added) c keyword e.
Proof.
  intros H s0 Hp Hm. destruct (H s0 Hp Hm) as (link & Hl & Hx).
  exists link. split; [assumption | now apply alert_exists_app].
Qed.

Lemma covered_keyword_app al added c keyword :
  covered_keyword al c keyword -> covered_keyword (al ++ added) c keyword.
Proof. apply Forall_impl. intros e. apply covered_app. Qed.

Lemma covered_company_app al added c :
  covered_company al c -> covered_company (al ++ added) c.
Proof. apply Forall_impl. intros kw. apply covered_keyword_app. Qed.

(** After a loop over [l], what each turn established still holds,
    because the later turns only append alerts. *)
Lemma fold_left_establishes {B : Type} (f : session * nat -> B -> session * nat)
      (C : list alert -> B -> Prop) (l : list B) :
  (forall a b, advances a (f a b)) ->
  (forall a b, In b l -> C (alerts (fst (f a b))) b) ->
  (forall al added b, C al b -> C (al ++ added) b) ->
  forall a, Forall (C (alerts (fst (fold_left f l a)))) l.
Proof.
  intros Hadv Hest Hmono. induction l as [|b l IH]; intros a; simpl; [constructor|].
  constructor.
  - assert (Hl : advances (f a b) (fold_left f l (f a b))).
    { apply fold_left_invariant; [|apply advances_refl].
      intros a' b' _ H. eapply advances_trans; [exact H | apply Hadv]. }
    destruct Hl as (_ & _ & (added & -> & _) & _).
    apply Hmono, Hest. now left.
  - apply IH. intros a' b' Hin. apply Hest. now right.
Qed.

Lemma process_entry_covers c keyword acc e :
  e_link e <> None ->
  covered (alerts (fst (process_entry uuid4 now_iso window today c keyword acc e))) c keyword e.
Proof.
  destruct acc as [s n]. intros Hl s0 Hp Hm.
  destruct (e_link e) as [link|] eqn:El; [|congruence].
  exists link. split; [reflexivity|].
  rewrite (entry_date_filter_verdict window today e s0 s) in Hp.
  destruct (process_entry_cases uuid4 now_iso window today c keyword s n e)
    as [(Ha & _ & Hx) | (_ & _ & _ & Ha & _)]; rewrite Ha.
  - specialize (Hx Hp Hm). unfold dedup_key in Hx. now rewrite El in Hx.
  - apply alert_exists_spec. rewrite map_app. apply in_or_app. right. left.
    unfold dedup_key. now rewrite El.
Qed.

Hypothesis links : Forall (fun e => e_link e <> None) api_data.

Lemma process_keyword_covers c acc keyword :
  covered_keyword
    (alerts (fst (process_keyword uuid4 now_iso window today api_data c acc keyword))) c keyword.
Proof.
  unfold covered_keyword, process_keyword.
  apply (fold_left_establishes _ (fun al e => covered al c keyword e)).
  - intros. apply process_entry_advances.
  - intros a e Hin. apply process_entry_covers.
    rewrite Forall_forall in links. now apply links.
  - intros. now apply covered_app.
Qed.

Lemma process_company_covers acc c :
  covered_company (alerts (fst (process_company uuid4 now_iso window today api_data acc c))) c.
Proof.
  unfold covered_company, process_company.
  apply (fold_left_establishes _ (fun al kw => covered_keyword al c kw)).
  - intros. apply process_keyword_advances.
  - intros. apply process_keyword_covers.
  - intros. now apply covered_keyword_app.
Qed.

Lemma match_feed_covers s :
  Forall (covered_company (alerts (fst (match_feed uuid4 now_iso window today api_data s))))
         (companies s).
Proof.
  unfold match_feed.
  apply (fold_left_establishes _ (fun al c => covered_company al c)).
  - intros. apply process_company_advances.
  - intros. apply process_company_covers.
  - intros. now apply covered_company_app.
Qed.

Lemma process_entry_noop c keyword acc e :
  covered (alerts (fst acc)) c keyword e ->
  alerts (fst (process_entry uuid4 now_iso window today c keyword acc e)) = alerts (fst acc)
  /\ snd (process_entry uuid4 now_iso window today c keyword acc e) = snd acc.
Proof.
  destruct acc as [s n]. intros H. change (covered (alerts s) c keyword e) in H.
  destruct (process_entry_cases uuid4 now_iso window today c keyword s n e)
    as [(Ha & Hn & _) | (Hp & Hm & Hx & _)]; [now split|].
  destruct (H s Hp Hm) as (link & Hl & Hex).
  unfold dedup_key in Hx. rewrite Hl in Hx. congruence.
Qed.

Lemma match_feed_noop s :
  Forall (covered_company (alerts s)) (companies s) ->
  still (alerts s) O (match_feed uuid4 now_iso window today api_data s).
Proof.
  intros H. unfold match_feed.
  apply (fold_left_invariant _ (still (alerts s) O)); [|now split].
  intros a c Hc Ha. rewrite Forall_forall in H. specialize (H c Hc).
  unfold process_company.
  apply (fold_left_invariant _ (still (alerts s) O)); [|exact Ha].
  intros a' kw Hkw Ha'. unfold covered_company in H. rewrite Forall_forall in H.
  specialize (H kw Hkw). unfold process_keyword.
  apply (fold_left_invariant _ (still (alerts s) O)); [|exact Ha'].
  intros a'' e He [Hal Hn]. unfold covered_keyword in H. rewrite Forall_forall in H.
  specialize (H e He). rewrite <- Hal in H.
  destruct (process_entry_noop c kw a'' e H) as [H1 H2].
  split; congruence.
Qed.

Lemma fetch_and_check_covers s :
  all_covered (fetch_and_check uuid4 now_iso window today (Feed api_data) s).
Proof.
  unfold all_covered. destruct (fetch_and_check_feed s) as [-> ->].
  apply (match_feed_covers (emit (Show (OkFetched (length api_data))) s)).
Qed.

Lemma fetch_and_check_noop s :
  all_covered s ->
  alerts (fetch_and_check uuid4 now_iso window today (Feed api_data) s) = alerts s.
Proof.
  intros H. destruct (fetch_and_check_feed s) as [_ ->].
  apply (match_feed_noop (emit (Show (OkFetched (length api_data))) s)). exact H.
Qed.

Lemma refetch_noop n s :
  all_covered s -> alerts (refetch uuid4 now_iso window today api_data n s) = alerts s.
Proof.
  revert s. induction n as [|n IH]; intros s H; simpl; [reflexivity|].
  rewrite IH; [now apply fetch_and_check_noop | apply fetch_and_check_covers].
Qed.

Lemma refetch_unique n s :
  unique_triples (alerts s) ->
  unique_triples (alerts (refetch uuid4 now_iso window today api_data n s)).
Proof.
  revert s. induction n as [|n IH]; intros s H; simpl; [assumption|].
  apply IH. now apply fetch_and_check_unique.
Qed.

End Runs.

(** C3.  Starting from a collection in which no two alerts share a triple
    [(company_id, matched_keyword, api_entry_id)], no number of fetches of
    the same feed makes two alerts share one: the pipeline appends an alert
    only when no alert of the collection, those appended earlier in the run
    included, has its triple.  When the entries of the feed have links,
    fetching again adds nothing to what the first fetch left. *)
Theorem refetch_keeps_one_alert_per_triple
        (uuid4 now_iso : nat -> string) (window : option Z) (today : Z)
        (api_data : list entry) (n : nat) (s : session) :
  unique_triples (alerts s) ->
  unique_triples (alerts (refetch uuid4 now_iso window today api_data n s))
  /\ (forall c keyword s0 n0 e,
         alerts (fst (process_entry uuid4 now_iso window today c keyword (s0, n0) e))
         <> alerts s0 ->
         ~ In (c_id c, keyword, dedup_key uuid4 e s0) (map triple (alerts s0))
         /\ exists a, triple a = (c_id c, keyword, dedup_key uuid4 e s0)
                      /\ alerts (fst (process_entry uuid4 now_iso window today c keyword
                                                    (s0, n0) e))
                         = alerts s0 ++ [a])
  /\ (Forall (fun e => e_link e <> None) api_data ->
      alerts (refetch uuid4 now_iso window today api_data (S n) s)
      = alerts (refetch uuid4 now_iso window today api_data 1 s)).
Proof.
  intros H. split; [now apply refetch_unique|]. split.
  - intros c keyword s0 n0 e Hne.
    destruct (process_entry_cases uuid4 now_iso window today c keyword s0 n0 e)
      as [(Ha & _) | (_ & _ & Hx & Ha & _)]; [contradiction|].
    split.
    + rewrite <- alert_exists_spec. congruence.
    + eexists. split; [|exact Ha]. reflexivity.
  - intros Hl. simpl.
    apply refetch_noop; [exact Hl | apply fetch_and_check_covers; exact Hl].
Qed.

Lemma refetch_keeps_one_alert_per_triple_witness :
  let feed := [Sample.entry_with_link (Some "L1"%string)] in
  let run := refetch Sample.uuid4 Sample.now_iso (Some 30) Sample.today feed in
  unique_triples (alerts Sample.triage_session)
  /\ unique_triples (alerts (run 3%nat Sample.triage_session))
  /\ alerts (run 4%nat Sample.triage_session) = alerts (run 1%nat Sample.triage_session).
Proof.
  assert (H0 : unique_triples (alerts Sample.triage_session)).
  { vm_compute. repeat constructor. intros []. }
  split; [exact H0|].
  destruct (refetch_keeps_one_alert_per_triple Sample.uuid4 Sample.now_iso (Some 30)
              Sample.today [Sample.entry_with_link (Some "L1"%string)] 3
              Sample.triage_session H0) as (H1 & _ & H2).
  split; [exact H1|]. apply H2. repeat constructor. discriminate.
Defined.

End Refetch.

(* ------------------------------------------------------------------ *)
(** ** The fetch button: saving, and failures of the fetch *)

Module Fetch.
Import PyStr Spec PyStrFacts Pipeline.
Local Open Scope list_scope.

Lemma events_since_app (s s' : session) (evs : list event) :
  trace s' = trace s ++ evs -> events_since s s' = evs.
Proof.
  unfold events_since. intros ->. rewrite skipn_app, Nat.sub_diag, skipn_all. reflexivity.
Qed.

Lemma date_warning_is_no_save (evs : list event) (data : list alert) :
  Forall is_date_warning evs -> ~ In (SaveAlerts data) evs.
Proof.
  intros H Hin. rewrite Forall_forall in H. apply (H _ Hin).
Qed.

(** C10.  A click on the fetch button that finds no new alert does not
    call [save_data] on the alerts file and leaves the collection as it
    was; the file is written, with the collection as it is after the run,
    exactly when the run created at least one alert. *)
Theorem alerts_saved_only_for_new_alerts
        (uuid4 now_iso : nat -> string) (window : option Z) (today : Z)
        (api_data : list entry) (s : session) :
  let s' := fetch_and_check uuid4 now_iso window today (Feed api_data) s in
  let new_alerts_found :=
    snd (match_feed uuid4 now_iso window today api_data
                    (emit (Show (OkFetched (length api_data))) s)) in
  (new_alerts_found = O ->
   alerts s' = alerts s /\ forall data, ~ In (SaveAlerts data) (events_since s s'))
  /\ ((0 < new_alerts_found)%nat ->
      In (SaveAlerts (alerts s')) (events_since s s')
      /\ length (alerts s') = (length (alerts s) + new_alerts_found)%nat).
Proof.
  cbv zeta. unfold fetch_and_check.
  destruct (companies s) as [|c0 cs] eqn:Ec.
  - unfold match_feed. simpl. rewrite Ec. simpl. split; [|lia]. intros _.
    split; [reflexivity|]. intros data.
    rewrite (events_since_app s _ [Show WarnNoCompanies]) by reflexivity.
    simpl. intros [H|[]]. discriminate.
  - pose proof (match_feed_advances uuid4 now_iso window today api_data
                  (emit (Show (OkFetched (length api_data))) s))
      as (_ & _ & (added & Ha & Hn) & (evs & He & Hw)).
    destruct (match_feed uuid4 now_iso window today api_data
                         (emit (Show (OkFetched (length api_data))) s)) as [s2 n].
    simpl in *. split.
    + intros ->. simpl. destruct added; [|simpl in Hn; lia].
      rewrite app_nil_r in Ha. split; [assumption|]. intros data.
      rewrite (events_since_app s _ ([Show (OkFetched (length api_data))] ++ evs
                                     ++ [Show InfoNoNewAlerts])).
      * simpl. intros [H|H]; [discriminate|].
        apply in_app_or in H as [H|[H|[]]]; [|discriminate].
        exact (date_warning_is_no_save _ _ Hw H).
      * simpl. rewrite He. now rewrite <- !app_assoc.
    + intros Hpos. destruct (Nat.ltb_spec 0 n) as [_|]; [|lia]. simpl. split.
      * rewrite (events_since_app s _ ([Show (OkFetched (length api_data))] ++ evs
                                       ++ [SaveAlerts (alerts s2); Show (OkNewAlerts n); Rerun])).
        -- apply in_or_app. right. apply in_or_app. right. now left.
        -- unfold save_alerts, emit. simpl. rewrite He. now rewrite <- !app_assoc.
      * rewrite Ha, length_app. lia.
Qed.

Lemma error_message_reports (e : exception) : reports (classify e) (error_message e).
Proof.
  unfold classify, error_message.
  destruct (is_HTTPError e), (is_Timeout e), (is_RequestException e), (is_JSONDecodeError e);
    exact I.
Qed.

Lemma reports_one_error (err err' : fetch_error) (m : message) :
  reports err m -> reports err' m -> err = err'.
Proof. destruct err, err', m; simpl; tauto. Qed.

(** C9.  When the fetch raises (a timeout, an HTTP status, a transport
    failure, a body that does not decode, or anything else), the handler
    returns a session with the companies, the alerts and the selection as
    they were, writes no file, and shows one message, which is the message
    of that kind of failure and of no other kind. *)
Theorem fetch_error_leaves_state
        (uuid4 now_iso : nat -> string) (window : option Z) (today : Z)
        (e : exception) (s : session) :
  companies s <> [] ->
  let s' := fetch_and_check uuid4 now_iso window today (Raises e) s in
  companies s' = companies s
  /\ alerts s' = alerts s
  /\ selected_alerts s' = selected_alerts s
  /\ exists m, events_since s s' = [Show m]
               /\ reports (classify e) m
               /\ forall err, reports err m -> err = classify e.
Proof.
  intros Hne. unfold fetch_and_check.
  destruct (companies s) as [|c0 cs] eqn:Ec; [congruence|].
  cbv zeta. split; [simpl; congruence|]. split; [reflexivity|]. split; [reflexivity|].
  exists (error_message e). split; [apply events_since_app; reflexivity|].
  split; [apply error_message_reports|].
  intros err H. exact (reports_one_error _ _ _ H (error_message_reports e)).
Qed.

(** A timeout of the request, and a body that does not decode. *)
Lemma fetch_error_leaves_state_witness :
  let timeout := mkException false true true false "Read timed out." 0 "" in
  let s' := fetch_and_check Sample.uuid4 Sample.now_iso (Some 7) Sample.today (Raises timeout)
                            Sample.triage_session in
  companies s' = companies Sample.triage_session
  /\ alerts s' = alerts Sample.triage_session
  /\ selected_alerts s' = selected_alerts Sample.triage_session
  /\ exists m, events_since Sample.triage_session s' = [Show m]
               /\ reports TimeoutError m
               /\ forall err, reports err m -> err = TimeoutError.
Proof.
  apply (fetch_error_leaves_state Sample.uuid4 Sample.now_iso (Some 7) Sample.today
           (mkException false true true false "Read timed out." 0 "") Sample.triage_session).
  discriminate.
Defined.

End Fetch.

(* ------------------------------------------------------------------ *)
(** ** Removing a company *)

Module Removal.
Import PyStr Spec PyStrFacts.
Local Open Scope list_scope.

(** The alerts of the removed company go, and no others. *)
Lemma remove_company_alerts (i : nat) (s : session) (c : company) :
  nth_error (companies s) i = Some c ->
  alerts (remove_company i s)
  = filter (fun a => negb (String.eqb (a_company_id a) (c_id c))) (alerts s).
Proof. unfold remove_company. intros ->. reflexivity. Qed.

Lemma remove_company_alerts_In (i : nat) (s : session) (c : company) (a : alert) :
  nth_error (companies s) i = Some c ->
  In a (alerts (remove_company i s)) <-> In a (alerts s) /\ a_company_id a <> c_id c.
Proof.
  intros H. rewrite (remove_company_alerts i s c H), filter_In, negb_true_iff.
  now rewrite String.eqb_neq.
Qed.

(** The comprehension that prunes the selection looks the keys up in the
    collection from which the company's alerts are already gone: it finds
    none of them, and keeps every entry. *)
Lemma remove_company_never_prunes (i : nat) (s : session) :
  selected_alerts (remove_company i s) = selected_alerts s.
Proof.
  unfold remove_company. destruct (nth_error (companies s) i) as [c|]; [|reflexivity].
  cbn -[filter existsb].
  apply forallb_filter_id. apply forallb_forall. intros kv _.
  apply negb_true_iff. apply not_true_is_false. intros H.
  apply existsb_exists in H as (a & Hin & H).
  apply filter_In in Hin as [_ Hin]. apply andb_true_iff in H as [_ H].
  rewrite H in Hin. discriminate.
Qed.

(** C1, on the code.  The company Acme has the alert [a-1], which is
    selected.  Removing Acme removes the alert and leaves the entry of
    [a-1] in the selection. *)
Theorem remove_company_leaves_selection_entry :
  let s' := remove_company 0 Sample.triage_session in
  companies s' = [Sample.globex]
  /\ alerts s' = []
  /\ selected_alerts s' = [("a-1"%string, true)]
  /\ selected_alerts s' = selected_alerts Sample.triage_session.
Proof.
  cbv zeta. rewrite remove_company_never_prunes. vm_compute. repeat split.
Qed.

End Removal.

(* ------------------------------------------------------------------ *)
(** ** Bulk status update *)

Module Triage.
Import PyStr Spec PyStrFacts.
Local Open Scope list_scope.

Lemma apply_status_spec (ids : list string) (status : string) (al : list alert) :
  Forall2 (updated_from ids status) al (fst (apply_status ids status al))
  /\ snd (apply_status ids status al) = length (requested ids al).
Proof.
  induction al as [|a al [IH1 IH2]]; simpl; [split; [constructor | reflexivity]|].
  destruct (apply_status ids status al) as [r' n]. simpl in *.
  destruct (mem (a_id a) ids) eqn:E; simpl; (split; [constructor; [|assumption] | congruence]).
  - apply mem_spec in E.
    split; [reflexivity | split; [intros _; reflexivity | intros Hn; contradiction]].
  - assert (Hn : ~ In (a_id a) ids) by (rewrite <- mem_spec; congruence).
    split; [now destruct a | split; [intros Hi; contradiction | reflexivity]].
Qed.

Lemma apply_status_absent (id : string) (ids : list string) (status : string)
      (al : list alert) :
  ~ In id (map a_id al) ->
  apply_status (id :: ids) status al = apply_status ids status al.
Proof.
  induction al as [|a al IH]; simpl; intros H; [reflexivity|].
  rewrite IH by tauto.
  replace (String.eqb (a_id a) id) with false; [reflexivity|].
  symmetry. apply String.eqb_neq. intros E. apply H. now left.
Qed.

(** The ids that the button passes on: the selected ids of the alerts that
    the list displays. *)
Lemma selected_ids_for_update_spec (visible : list alert) (sel : list (string * bool))
      (id : string) :
  In id (selected_ids_for_update visible sel)
  <-> In (id, true) sel /\ exists a, In a visible /\ a_id a = id.
Proof.
  unfold selected_ids_for_update. rewrite in_map_iff. split.
  - intros ([k v] & <- & H). apply filter_In in H as [Hin H]. simpl in *.
    apply andb_true_iff in H as [-> H]. apply existsb_exists in H as (a & Ha & He).
    apply String.eqb_eq in He. eauto.
  - intros [Hin (a & Ha & He)]. exists (id, true). split; [reflexivity|].
    apply filter_In. split; [assumption|]. simpl. apply existsb_exists.
    exists a. split; [assumption | now apply String.eqb_eq].
Qed.

(** C8.  Bulk status update sets the status of exactly the alerts of the
    collection whose id is requested and changes no other field of any
    alert; it counts the alerts it updated and shows that count after
    saving the collection once; a requested id that no alert has changes
    neither the collection nor the count. *)
Theorem bulk_set_status_spec (ids : list string) (new_bulk_status : string) (s : session) :
  let s' := bulk_set_status ids new_bulk_status s in
  let updated_count := snd (apply_status ids new_bulk_status (alerts s)) in
  Forall2 (updated_from ids new_bulk_status) (alerts s) (alerts s')
  /\ updated_count = length (requested ids (alerts s))
  /\ ((0 < updated_count)%nat ->
      events_since s s'
      = [SaveAlerts (alerts s'); Show (OkBulkUpdated updated_count new_bulk_status); Rerun])
  /\ (forall id, ~ In id (map a_id (alerts s)) ->
                 apply_status (id :: ids) new_bulk_status (alerts s)
                 = apply_status ids new_bulk_status (alerts s))
  /\ companies s' = companies s.
Proof.
  cbv zeta. destruct (apply_status_spec ids new_bulk_status (alerts s)) as [H1 H2].
  split; [|split; [exact H2|split; [|split]]].
  - unfold bulk_set_status. destruct ids as [|id ids].
    + simpl. clear. induction (alerts s) as [|a al IH]; constructor; [|exact IH].
      split; [now destruct a | split; [intros [] | reflexivity]].
    + destruct (apply_status (id :: ids) new_bulk_status (alerts s)) as [al n].
      destruct (0 <? n)%nat; exact H1.
  - intros Hpos. unfold bulk_set_status. destruct ids as [|id ids].
    + exfalso. rewrite H2 in Hpos.
      assert (E : requested [] (alerts s) = []).
      { unfold requested. clear. induction (alerts s); simpl; auto. }
      rewrite E in Hpos. simpl in Hpos. lia.
    + destruct (apply_status (id :: ids) new_bulk_status (alerts s)) as [al n].
      simpl in Hpos. destruct (Nat.ltb_spec 0 n) as [_|]; [|lia].
      apply Fetch.events_since_app. simpl. now rewrite <- !app_assoc.
  - intros id. apply apply_status_absent.
  - unfold bulk_set_status. destruct ids as [|id ids]; [reflexivity|].
    destruct (apply_status (id :: ids) new_bulk_status (alerts s)) as [al n].
    destruct (0 <? n)%nat; reflexivity.
Qed.

(** One requested id is the id of an alert and one is not: one alert is
    updated and the count is one. *)
Example bulk_set_status_one_of_two :
  let s' := bulk_set_status ["a-1"; "no-such-alert"]%string "Complete" Sample.triage_session in
  map a_status (alerts s') = ["Complete"%string]
  /\ In (Show (OkBulkUpdated 1 "Complete")) (trace s').
Proof. vm_compute. split; [reflexivity | right; left; reflexivity]. Qed.

End Triage.

(* ------------------------------------------------------------------ *)
(** ** Adding a company *)

Module Registry.
Import PyStr Spec PyStrFacts.
Local Open Scope list_scope.

Lemma clean_keywords_In (raws : list string) (k : string) :
  In k (clean_keywords raws) <-> keyword_of raws k.
Proof.
  unfold clean_keywords, keyword_of. rewrite in_map_iff. split.
  - intros (raw & <- & H). apply filter_In in H as [Hin H]. apply truthy_true in H. eauto.
  - intros (raw & Hin & H & ->). exists raw. split; [reflexivity|].
    apply filter_In. split; [assumption | now apply truthy_true].
Qed.

Lemma clean_keywords_app (l l' : list string) :
  clean_keywords (l ++ l') = clean_keywords l ++ clean_keywords l'.
Proof. unfold clean_keywords. now rewrite filter_app, map_app. Qed.

Lemma name_taken_spec (name : string) (cs : list company) :
  name_taken name cs = true <-> name_collides name cs.
Proof.
  unfold name_taken, name_collides. rewrite existsb_exists.
  split; intros (c & Hin & H); exists c; (split; [assumption|]); now apply String.eqb_eq.
Qed.

(** Reading the upload shows a message and changes nothing else. *)
Lemma read_csv_keywords_spec (uploaded_file : option csv_upload) (s : session) :
  exists evs,
    read_csv_keywords uploaded_file s
    = (clean_keywords match uploaded_file with
                      | Some (CsvFirstColumn cells) => cells
                      | _ => []
                      end,
       mkSession (companies s) (alerts s) (selected_alerts s) (uuids_drawn s) (ticks s)
                 (trace s ++ evs))
    /\ Forall (fun ev => exists m, ev = Show m /\ ~ validation_error m) evs.
Proof.
  unfold read_csv_keywords. destruct uploaded_file as [[cells|]|].
  - eexists. split; [reflexivity|]. repeat constructor. eexists. split; [reflexivity|]. auto.
  - eexists. split; [reflexivity|]. repeat constructor. eexists. split; [reflexivity|]. auto.
  - exists []. rewrite app_nil_r. destruct s. split; [reflexivity | constructor].
Qed.

Section Add.
Variable uuid4 : nat -> string.

(** C7.  The form is rejected, with one of the three validation messages,
    the registry unchanged and nothing saved, whenever the name is empty,
    the typed and uploaded entries give no keyword, or the name is that of
    a company of the registry up to case.  Otherwise a company with the
    next identifier of the generator, the name, the description and the
    keywords (each entry trimmed and lower-cased, each keyword once, in
    increasing order) is appended to the registry, and the registry is
    saved. *)
Theorem add_company_spec (company_name company_description keywords_str : string)
        (uploaded_file : option csv_upload) (s : session) :
  let s' := add_company uuid4 company_name company_description keywords_str uploaded_file s in
  let raws := raw_keywords keywords_str uploaded_file in
  let invalid := company_name = EmptyString
                 \/ (forall k, ~ keyword_of raws k)
                 \/ name_collides company_name (companies s) in
  (invalid ->
   companies s' = companies s
   /\ alerts s' = alerts s
   /\ Forall (fun ev => ~ saves_companies ev) (events_since s s')
   /\ exists m, validation_error m /\ In (Show m) (events_since s s'))
  /\ (~ invalid ->
      exists keywords,
        companies s'
        = companies s ++ [mkCompany (uuid4 (uuids_drawn s)) company_name company_description
                                    keywords]
        /\ StronglySorted str_lt keywords
        /\ (forall k, In k keywords <-> keyword_of raws k)
        /\ In (SaveCompanies (companies s')) (events_since s s')
        /\ alerts s' = alerts s).
Proof.
  cbv zeta. unfold add_company.
  destruct (truthy company_name) eqn:En; simpl.
  2:{ apply truthy_false in En. split; [|tauto]. intros _.
      rewrite (Fetch.events_since_app s _ [Show ErrCompanyNameRequired]) by reflexivity.
      repeat split; [repeat constructor; auto|].
      eexists. split; [|now left]. exact I. }
  apply truthy_true in En.
  destruct (read_csv_keywords_spec uploaded_file s) as (evs & -> & Hevs).
  set (all_keywords := sorted_set _).
  assert (Hk : forall k, In k all_keywords <-> keyword_of (raw_keywords keywords_str uploaded_file) k).
  { intros k. unfold all_keywords, raw_keywords.
    now rewrite sorted_set_In, <- clean_keywords_app, clean_keywords_In. }
  assert (Hns : Forall (fun ev => ~ saves_companies ev) evs).
  { eapply Forall_impl; [|exact Hevs]. intros ev (m & -> & _). auto. }
  destruct all_keywords as [|k0 ks] eqn:Ek.
  - split.
    + intros _.
      rewrite (Fetch.events_since_app s _ (evs ++ [Show ErrNoKeyword]))
        by (simpl; now rewrite app_assoc).
      repeat split.
      * apply Forall_app. split; [assumption | repeat constructor; auto].
      * eexists. split; [|apply in_or_app; right; now left]. exact I.
    + intros H. exfalso. apply H. right. left. intros k Hkw. now apply Hk in Hkw.
  - simpl. destruct (name_taken company_name (companies s)) eqn:Et.
    + split.
      * intros _.
        rewrite (Fetch.events_since_app s _ (evs ++ [Show (WarnCompanyExists company_name)]))
          by (simpl; now rewrite app_assoc).
        repeat split.
        -- apply Forall_app. split; [assumption | repeat constructor; auto].
        -- eexists. split; [|apply in_or_app; right; now left]. exact I.
      * intros H. exfalso. apply H. right. right. now apply name_taken_spec.
    + split.
      * intros [H | [H | H]]; exfalso.
        -- contradiction.
        -- apply (H k0). apply Hk. now left.
        -- apply name_taken_spec in H. congruence.
      * intros _. exists (k0 :: ks). split; [reflexivity|]. split.
        { rewrite <- Ek. apply sorted_set_sorted. }
        split; [exact Hk|]. split; [|reflexivity].
        rewrite (Fetch.events_since_app s _
                   (evs ++ [SaveCompanies
                              (companies s ++ [mkCompany (uuid4 (uuids_drawn s)) company_name
                                                         company_description (k0 :: ks)]);
                            Show (OkCompanyAdded company_name (length (k0 :: ks)));
                            Rerun])).
        -- apply in_or_app. right. now left.
        -- unfold save_companies, emit. simpl. now rewrite <- !app_assoc.
Qed.

End Add.

(** A second "acme", in capitals, is rejected; "Initech" is added. *)
Example add_company_examples :
  companies (add_company Sample.uuid4 "ACME" "" "acme" None Sample.empty_session)
  = [Sample.acme]
  /\ companies (add_company Sample.uuid4 "Initech" "" " TPS ,initech,,tps" None
                            Sample.empty_session)
     = [Sample.acme; mkCompany "uuid-0" "Initech" "" ["initech"; "tps"]%string].
Proof. vm_compute. split; reflexivity. Qed.

End Registry.

(* ------------------------------------------------------------------ *)
(** ** What a fetch adds *)

Module FetchAdds.
Import PyStr Spec PyStrFacts Pipeline.
Local Open Scope list_scope.

Lemma pass_in_window window today e s :
  fst (entry_date_filter window today e s) = Pass -> in_window window today (e_date e).
Proof.
  destruct window as [w|]; simpl; [|trivial].
  intros H Hout. apply Recency.entry_date_filter_bounded with (s := s) in Hout. congruence.
Qed.

Lemma gang_name_not_empty (e : entry) : gang_name e <> EmptyString.
Proof.
  unfold gang_name. destruct (e_claim_gang e) as [[|g]|]; try discriminate.
  destruct g; simpl; discriminate.
Qed.

Section Adds.
Variable uuid4 : nat -> string.
Variable now_iso : nat -> string.
Variables (window : option Z) (today : Z) (api_data : list entry).

Local Abbreviation grown := (Spec.grown window today api_data).

Lemma process_entry_grown cs s0 c keyword acc e :
  In c cs -> In keyword (c_keywords c) -> In e api_data ->
  grown cs s0 acc ->
  grown cs s0 (process_entry uuid4 now_iso window today c keyword acc e).
Proof.
  intros Hc Hk He (added & Ha & Hf). destruct acc as [s n]. simpl in Ha.
  destruct (process_entry_cases uuid4 now_iso window today c keyword s n e)
    as [(H & _) | (Hp & Hm & _ & H & _)]; unfold Spec.grown; rewrite H.
  - exists added. now split.
  - exists (added ++ [new_alert (uuid4 (S (uuids_drawn s)))
                                (dedup_key uuid4 e s) (now_iso (ticks s)) c keyword e]).
    split; [rewrite Ha; now rewrite app_assoc|].
    apply Forall_app. split; [assumption|]. constructor; [|constructor].
    exists c, keyword, e. repeat split; try assumption.
    + now apply pass_in_window with (s := s).
    + apply gang_name_not_empty.
Qed.

Lemma match_feed_grown s :
  grown (companies s) s (match_feed uuid4 now_iso window today api_data s).
Proof.
  unfold match_feed.
  apply (fold_left_invariant _ (grown (companies s) s)).
  2:{ exists []. simpl. rewrite app_nil_r. split; [reflexivity | constructor]. }
  intros a c Hc Ha. unfold process_company.
  apply (fold_left_invariant _ (grown (companies s) s)); [|exact Ha].
  intros a' kw Hk Ha'. unfold process_keyword.
  apply (fold_left_invariant _ (grown (companies s) s)); [|exact Ha'].
  intros a'' e He Ha''. now apply process_entry_grown.
Qed.

Lemma fetch_and_check_grown (s : session) :
  exists added,
    alerts (fetch_and_check uuid4 now_iso window today (Feed api_data) s) = alerts s ++ added
    /\ Forall (from_match window today (companies s) api_data) added.
Proof.
  destruct (Refetch.fetch_and_check_feed uuid4 now_iso window today api_data s) as [_ Ha].
  rewrite Ha. apply (match_feed_grown (emit (Show (OkFetched (length api_data))) s)).
Qed.

(** X1.  A click on the fetch button with an answering feed leaves the
    companies and the selection alone, keeps every alert of the collection
    in its place and as it was, and appends only alerts of status Open for
    a company of the registry, one of its keywords and an entry of the feed
    that the keyword matches and that the window lets through. *)
Theorem fetch_only_appends_matches (s : session) :
  let s' := fetch_and_check uuid4 now_iso window today (Feed api_data) s in
  companies s' = companies s
  /\ selected_alerts s' = selected_alerts s
  /\ exists added, alerts s' = alerts s ++ added
                   /\ Forall (from_match window today (companies s) api_data) added.
Proof.
  cbv zeta.
  destruct (Refetch.fetch_and_check_feed uuid4 now_iso window today api_data s) as [Hc _].
  split; [exact Hc|]. split; [|apply fetch_and_check_grown].
  unfold fetch_and_check. destruct (companies s) as [|c0 cs]; [reflexivity|].
  pose proof (match_feed_advances uuid4 now_iso window today api_data
                (emit (Show (OkFetched (length api_data))) s)) as (_ & Hs & _).
  destruct (match_feed uuid4 now_iso window today api_data
                       (emit (Show (OkFetched (length api_data))) s)) as [s2 n].
  simpl in Hs. destruct (0 <? n)%nat; exact Hs.
Qed.

End Adds.

Lemma In_pop {A : Type} (i : nat) (l : list A) (x y : A) :
  nth_error l i = Some x -> In y l -> y <> x -> In y (pop i l).
Proof.
  revert i. induction l as [|z l IH]; intros i En Hy Hne; [destruct i; discriminate|].
  destruct i as [|i]; simpl in *.
  - injection En as ->. destruct Hy as [->|Hy]; [congruence | exact Hy].
  - destruct Hy as [->|Hy]; [now left | right; now apply IH].
Qed.

(** The form "Add New Company" leaves the alerts alone and removes no
    company. *)
Lemma add_company_frame (uuid4 : nat -> string) name description keywords_str uploaded_file s :
  alerts (add_company uuid4 name description keywords_str uploaded_file s) = alerts s
  /\ incl (companies s)
          (companies (add_company uuid4 name description keywords_str uploaded_file s)).
Proof.
  unfold add_company. destruct (truthy name); simpl; [|split; [reflexivity | apply incl_refl]].
  destruct (Registry.read_csv_keywords_spec uploaded_file s) as (evs & -> & _).
  destruct (sorted_set _); simpl; [split; [reflexivity | apply incl_refl]|].
  destruct (name_taken name (companies s)); simpl; split;
    try reflexivity; try apply incl_refl.
  apply incl_appl, incl_refl.
Qed.

(** X2.  The alerts of a removed company go with it, a fetch adds alerts on
    companies of the registry, and adding a company removes none: every
    alert stays on a company of the registry. *)
Theorem alerts_keep_their_company
        (uuid4 now_iso : nat -> string) (window : option Z) (today : Z) (s : session) :
  alerts_have_company s ->
  (forall api_data,
      alerts_have_company (fetch_and_check uuid4 now_iso window today (Feed api_data) s))
  /\ (forall i, alerts_have_company (remove_company i s))
  /\ (forall name description keywords_str uploaded_file,
         alerts_have_company
           (add_company uuid4 name description keywords_str uploaded_file s)).
Proof.
  intros H. split; [|split].
  - intros api_data a Ha.
    destruct (Refetch.fetch_and_check_feed uuid4 now_iso window today api_data s) as [Hc _].
    destruct (fetch_and_check_grown uuid4 now_iso window today api_data s)
      as (added & Hal & Hf).
    rewrite Hc. rewrite Hal in Ha. apply in_app_or in Ha as [Ha|Ha]; [now apply H|].
    rewrite Forall_forall in Hf.
    destruct (Hf a Ha) as (c & _ & _ & Hin & _ & _ & _ & _ & Hid & _). eauto.
  - intros i a Ha. destruct (nth_error (companies s) i) as [removed|] eqn:En.
    + destruct (proj1 (Removal.remove_company_alerts_In i s removed a En) Ha) as [Ha' Hne].
      destruct (H a Ha') as (c & Hc & Hid).
      exists c. split; [|exact Hid].
      unfold remove_company. rewrite En. simpl.
      apply (In_pop _ _ _ _ En Hc). intros ->. congruence.
    + unfold remove_company in *. rewrite En in *. now apply H.
  - intros name description keywords_str uploaded_file a Ha.
    destruct (add_company_frame uuid4 name description keywords_str uploaded_file s)
      as (Hal & Hinc).
    rewrite Hal in Ha. destruct (H a Ha) as (c & Hin & Hid).
    exists c. split; [now apply Hinc | exact Hid].
Qed.

Lemma alerts_keep_their_company_witness :
  alerts_have_company
    (remove_company 1 (fetch_and_check Sample.uuid4 Sample.now_iso None Sample.today
                                       (Feed [Sample.entry_with_link None])
                                       Sample.triage_session)).
Proof.
  assert (H0 : alerts_have_company Sample.triage_session).
  { intros a [<-|[]]. exists Sample.acme. split; [now left | reflexivity]. }
  destruct (alerts_keep_their_company Sample.uuid4 Sample.now_iso None Sample.today
              Sample.triage_session H0) as (H1 & _).
  specialize (H1 [Sample.entry_with_link None]).
  destruct (alerts_keep_their_company Sample.uuid4 Sample.now_iso None Sample.today _ H1)
    as (_ & H2 & _).
  apply H2.
Defined.

End FetchAdds.

(* ------------------------------------------------------------------ *)
(** ** Lists and dicts as the handlers use them *)

Module Containers.
Import PyStr Spec PyStrFacts.
Local Open Scope list_scope.

Lemma find_index_Some {A : Type} (p : A -> bool) (l : list A) (i : nat) :
  find_index p l = Some i ->
  exists l1 x l2, l = l1 ++ x :: l2 /\ length l1 = i /\ p x = true
                  /\ Forall (fun y => p y = false) l1.
Proof.
  revert i. induction l as [|y l IH]; intros i; simpl; [discriminate|].
  destruct (p y) eqn:E.
  - intros [= <-]. exists [], y, l. repeat split; auto.
  - destruct (find_index p l) as [j|]; simpl; [|discriminate].
    intros [= <-]. destruct (IH j eq_refl) as (l1 & x & l2 & -> & Hl & Hx & Hf).
    exists (y :: l1), x, l2. simpl. repeat split; auto.
Qed.

Lemma find_index_None {A : Type} (p : A -> bool) (l : list A) :
  find_index p l = None <-> Forall (fun y => p y = false) l.
Proof.
  induction l as [|y l IH]; simpl.
  - split; [constructor | reflexivity].
  - destruct (p y) eqn:E.
    + split; [discriminate | intros H; inversion H; congruence].
    + destruct (find_index p l); simpl.
      * split; [discriminate | intros H; inversion H; subst].
        assert (Hn : Some n = None) by now apply IH. discriminate.
      * split; [constructor; [assumption | now apply IH] | reflexivity].
Qed.

Lemma nth_error_middle {A : Type} (l1 l2 : list A) (x : A) :
  nth_error (l1 ++ x :: l2) (length l1) = Some x.
Proof. induction l1; simpl; auto. Qed.

Lemma update_at_middle {A : Type} (f : A -> A) (l1 l2 : list A) (x : A) :
  update_at (length l1) f (l1 ++ x :: l2) = l1 ++ f x :: l2.
Proof. induction l1 as [|y l1 IH]; simpl; [reflexivity | now rewrite IH]. Qed.

Lemma pop_middle {A : Type} (l1 l2 : list A) (x : A) :
  pop (length l1) (l1 ++ x :: l2) = l1 ++ l2.
Proof. induction l1 as [|y l1 IH]; simpl; [reflexivity | now rewrite IH]. Qed.

Lemma nth_error_split {A : Type} (l : list A) (i : nat) (x : A) :
  nth_error l i = Some x -> exists l1 l2, l = l1 ++ x :: l2 /\ length l1 = i.
Proof.
  revert i. induction l as [|y l IH]; intros [|i]; simpl; try discriminate.
  - intros [= ->]. now exists [], l.
  - intros H. destruct (IH i H) as (l1 & l2 & -> & Hl). exists (y :: l1), l2. simpl. auto.
Qed.

Lemma update_at_Forall {A : Type} (Q : A -> Prop) (f : A -> A) (i : nat) (l : list A) :
  (forall x, Q x -> Q (f x)) -> Forall Q l -> Forall Q (update_at i f l).
Proof.
  intros Hf. revert i. induction l as [|y l IH]; intros i H; [destruct i; constructor|].
  inversion H; subst. destruct i; simpl; constructor; auto.
Qed.

Lemma update_at_map {A B : Type} (g : A -> B) (f : A -> A) (i : nat) (l : list A) :
  (forall x, g (f x) = g x) -> map g (update_at i f l) = map g l.
Proof.
  intros Hf. revert i. induction l as [|y l IH]; intros [|i]; simpl; try reflexivity.
  - now rewrite Hf.
  - now rewrite IH.
Qed.

Lemma pop_Forall {A : Type} (Q : A -> Prop) (i : nat) (l : list A) :
  Forall Q l -> Forall Q (pop i l).
Proof.
  revert i. induction l as [|y l IH]; intros i H; [destruct i; constructor|].
  inversion H; subst. destruct i; simpl; [assumption | constructor; auto].
Qed.

Lemma pop_map {A B : Type} (g : A -> B) (i : nat) (l : list A) :
  map g (pop i l) = pop i (map g l).
Proof.
  revert i. induction l as [|y l IH]; intros [|i]; simpl; try reflexivity. now rewrite IH.
Qed.

Lemma pop_incl {A : Type} (i : nat) (l : list A) : incl (pop i l) l.
Proof.
  revert i. induction l as [|y l IH]; intros [|i]; simpl; try apply incl_refl.
  - apply incl_tl, incl_refl.
  - intros x [->|H]; [now left | right; now apply (IH i)].
Qed.

Lemma pop_NoDup {A : Type} (i : nat) (l : list A) : NoDup l -> NoDup (pop i l).
Proof.
  revert i. induction l as [|y l IH]; intros i H; [destruct i; constructor|].
  inversion H; subst. destruct i; simpl; [assumption|].
  constructor; [|auto]. intros Hin. apply pop_incl in Hin. contradiction.
Qed.

Lemma pop_sorted {A : Type} (R : A -> A -> Prop) (i : nat) (l : list A) :
  StronglySorted R l -> StronglySorted R (pop i l).
Proof.
  revert i. induction l as [|y l IH]; intros i H; [destruct i; constructor|].
  inversion H; subst. destruct i; simpl; [assumption|].
  constructor; [auto|]. rewrite Forall_forall in *. intros x Hx.
  apply pop_incl in Hx. auto.
Qed.

Lemma filter_sorted {A : Type} (R : A -> A -> Prop) (p : A -> bool) (l : list A) :
  StronglySorted R l -> StronglySorted R (filter p l).
Proof.
  induction 1 as [|y l Hs IH Hy]; simpl; [constructor|].
  destruct (p y); [|assumption]. constructor; [assumption|].
  rewrite Forall_forall in *. intros x Hx. apply filter_In in Hx as [Hx _]. auto.
Qed.

Lemma filter_map_NoDup {A B : Type} (g : A -> B) (p : A -> bool) (l : list A) :
  NoDup (map g l) -> NoDup (map g (filter p l)).
Proof.
  induction l as [|y l IH]; simpl; intros H; [constructor|].
  inversion H; subst. destruct (p y); simpl; [|auto].
  constructor; [|auto]. rewrite in_map_iff in *. intros (x & Hg & Hx).
  apply filter_In in Hx as [Hx _]. eauto.
Qed.

(** *** The selection dict *)

Lemma dict_get_set_same (k : string) (v : bool) (d : list (string * bool)) :
  dict_get k (dict_set k v d) = v.
Proof.
  induction d as [|[k' v'] d IH]; simpl.
  - now rewrite String.eqb_refl.
  - destruct (String.eqb k' k) eqn:E; simpl; [now rewrite String.eqb_refl | now rewrite E].
Qed.

Lemma dict_get_set_other (k k0 : string) (v : bool) (d : list (string * bool)) :
  k0 <> k -> dict_get k0 (dict_set k v d) = dict_get k0 d.
Proof.
  intros Hne. induction d as [|[k' v'] d IH]; simpl.
  - apply String.eqb_neq in Hne. rewrite String.eqb_sym. now rewrite Hne.
  - destruct (String.eqb k' k) eqn:E; simpl.
    + apply String.eqb_eq in E. subst k'.
      replace (String.eqb k k0) with false; [reflexivity|].
      symmetry. apply String.eqb_neq. congruence.
    + destruct (String.eqb k' k0); auto.
Qed.

Lemma dict_set_keys (k : string) (v : bool) (d : list (string * bool)) :
  keys_unique d -> keys_unique (dict_set k v d)
                   /\ forall k0, In k0 (map fst (dict_set k v d)) <-> k0 = k \/ In k0 (map fst d).
Proof.
  unfold keys_unique. induction d as [|[k' v'] d IH]; simpl; intros H.
  - split; [constructor; [intros [] | constructor] | intros; intuition congruence].
  - inversion H as [|? ? H2 H3]; subst. destruct (IH H3) as [IH1 IH2].
    destruct (String.eqb k' k) eqn:E; simpl.
    + apply String.eqb_eq in E. subst k'. split; [now constructor | intros; intuition congruence].
    + apply String.eqb_neq in E. split.
      * constructor; [|assumption]. rewrite IH2. intros [Hk|Hk]; [congruence | contradiction].
      * intros k0. rewrite IH2. intuition congruence.
Qed.

Lemma dict_get_true_In (k : string) (d : list (string * bool)) :
  keys_unique d -> (In (k, true) d <-> dict_get k d = true).
Proof.
  unfold keys_unique. induction d as [|[k' v'] d IH]; simpl; intros H.
  - split; [tauto | discriminate].
  - inversion H; subst. destruct (String.eqb k' k) eqn:E.
    + apply String.eqb_eq in E. subst k'. split.
      * intros [[= ->]|Hin]; [reflexivity|].
        exfalso. apply H2. apply in_map_iff. now exists (k, true).
      * intros ->. now left.
    + apply String.eqb_neq in E. rewrite <- (IH H3). split.
      * intros [[= -> _]|Hin]; [congruence | assumption].
      * now right.
Qed.

Lemma dict_del_spec (k : string) (d : list (string * bool)) :
  keys_unique d ->
  keys_unique (dict_del k d)
  /\ dict_has k (dict_del k d) = false
  /\ forall k0, k0 <> k -> dict_get k0 (dict_del k d) = dict_get k0 d.
Proof.
  unfold keys_unique, dict_has. induction d as [|[k' v'] d IH]; simpl; intros H.
  - split; [constructor | split; [reflexivity | reflexivity]].
  - inversion H as [|? ? H2 H3]; subst. destruct (IH H3) as (IH1 & IH2 & IH3).
    destruct (String.eqb k' k) eqn:E; simpl.
    + apply String.eqb_eq in E. subst k'. split; [assumption|]. split.
      * apply not_true_is_false. intros Hex. apply existsb_exists in Hex as ([k1 v1] & Hin & He).
        simpl in He. apply String.eqb_eq in He. subst k1.
        apply H2. apply in_map_iff. now exists (k, v1).
      * intros k0 Hne. replace (String.eqb k k0) with false; [reflexivity|].
        symmetry. apply String.eqb_neq. congruence.
    + rewrite E. simpl. split; [|split; [assumption|]].
      * constructor; [|assumption]. intros Hin. apply H2.
        clear - Hin. induction d as [|[k1 v1] d IHd]; simpl in *; [contradiction|].
        destruct (String.eqb k1 k); simpl in *; [now right|].
        destruct Hin as [->|Hin]; [now left | right; auto].
      * intros k0 Hne. destruct (String.eqb k' k0); auto.
Qed.

End Containers.

(* ------------------------------------------------------------------ *)
(** ** Keywords as the forms store them *)

Module Keywords.
Import PyStr Spec PyStrFacts Containers.
Local Open Scope list_scope.

Lemma lower_ascii_idem (c : ascii) : lower_ascii (lower_ascii c) = lower_ascii c.
Proof. destruct c as [[] [] [] [] [] [] [] []]; reflexivity. Qed.

Lemma is_space_lower (c : ascii) : is_space (lower_ascii c) = is_space c.
Proof. destruct c as [[] [] [] [] [] [] [] []]; reflexivity. Qed.

Lemma lower_idem (s : string) : lower (lower s) = lower s.
Proof. induction s as [|c s IH]; simpl; [reflexivity | now rewrite lower_ascii_idem, IH]. Qed.

Lemma lstrip_lower (s : string) : lstrip (lower s) = lower (lstrip s).
Proof.
  induction s as [|c s IH]; simpl; [reflexivity|].
  rewrite is_space_lower. destruct (is_space c); [exact IH | reflexivity].
Qed.

Lemma rstrip_lower (s : string) : rstrip (lower s) = lower (rstrip s).
Proof.
  induction s as [|c s IH]; simpl; [reflexivity|].
  rewrite IH, is_space_lower.
  destruct (rstrip s) as [|c' r']; simpl; [destruct (is_space c)|]; reflexivity.
Qed.

Lemma strip_lower (s : string) : strip (lower s) = lower (strip s).
Proof. unfold strip. now rewrite lstrip_lower, rstrip_lower. Qed.

Lemma rstrip_cons (c : ascii) (r : string) :
  rstrip (String c r)
  = match rstrip r with
    | EmptyString => if is_space c then EmptyString else String c EmptyString
    | String c' r' => String c (String c' r')
    end.
Proof. reflexivity. Qed.

Lemma rstrip_idem (s : string) : rstrip (rstrip s) = rstrip s.
Proof.
  induction s as [|c s IH]; [reflexivity|].
  rewrite rstrip_cons. destruct (rstrip s) as [|c' r'] eqn:E.
  - destruct (is_space c) eqn:Ec; [reflexivity|]. rewrite rstrip_cons. simpl. now rewrite Ec.
  - rewrite rstrip_cons, IH. reflexivity.
Qed.

Lemma lstrip_head (s : string) :
  lstrip s = EmptyString \/ exists c r, lstrip s = String c r /\ is_space c = false.
Proof.
  induction s as [|c s IH]; simpl; [now left|].
  destruct (is_space c) eqn:E; [exact IH | right; eauto].
Qed.

Lemma rstrip_head (c : ascii) (r : string) :
  is_space c = false -> rstrip (String c r) = String c (rstrip r).
Proof. intros E. simpl. destruct (rstrip r); [now rewrite E | reflexivity]. Qed.

Lemma strip_idem (s : string) : strip (strip s) = strip s.
Proof.
  unfold strip. destruct (lstrip_head s) as [-> | (c & r & -> & E)]; [reflexivity|].
  rewrite (rstrip_head c r E). simpl. rewrite E. rewrite <- (rstrip_head c r E).
  apply rstrip_idem.
Qed.

Lemma clean_keywords_normalised (raws : list string) :
  Forall normalised (clean_keywords raws).
Proof.
  apply Forall_forall. intros k Hk. apply Registry.clean_keywords_In in Hk as (raw & _ & Hne & ->).
  split; [|split].
  - now rewrite lower_empty.
  - apply lower_idem.
  - now rewrite strip_lower, strip_idem.
Qed.

Lemma sorted_set_Forall (Q : string -> Prop) (l : list string) :
  Forall Q l -> Forall Q (sorted_set l).
Proof.
  rewrite !Forall_forall. intros H k Hk. apply H. now apply sorted_set_In.
Qed.

Lemma sorted_set_ok (id name description : string) (l : list string) :
  Forall normalised l -> keywords_ok (mkCompany id name description (sorted_set l)).
Proof. intros H. split; simpl; [apply sorted_set_sorted | now apply sorted_set_Forall]. Qed.

Section Handlers.
Variable uuid4 : nat -> string.

Lemma add_company_keywords_ok name description keywords_str uploaded_file s :
  Forall keywords_ok (companies s) ->
  Forall keywords_ok (companies (add_company uuid4 name description keywords_str
                                             uploaded_file s)).
Proof.
  intros H. unfold add_company. destruct (truthy name); simpl; [|assumption].
  destruct (Registry.read_csv_keywords_spec uploaded_file s) as (evs & -> & _).
  destruct (sorted_set _) as [|k ks] eqn:Ek; simpl; [assumption|].
  destruct (name_taken name (companies s)); simpl; [assumption|].
  apply Forall_app. split; [assumption|]. constructor; [|constructor].
  rewrite <- Ek. apply sorted_set_ok.
  apply Forall_app. split; apply clean_keywords_normalised.
Qed.

Lemma save_changes_keywords_ok name description keywords_str uploaded_file p :
  Forall keywords_ok (companies (page_session p)) ->
  Forall keywords_ok
         (companies (page_session (save_changes name description keywords_str
                                                uploaded_file p))).
Proof.
  intros H. unfold save_changes.
  destruct (editing_company_id p) as [id|]; [|assumption].
  destruct (company_to_edit_index id _) as [idx|]; [|assumption].
  destruct (nth_error _ idx) as [c|]; [|assumption].
  destruct (negb (truthy name)); [assumption|].
  match goal with |- context [if ?b then _ else _] => destruct b end; [assumption|].
  assert (Hcsv : exists kws p1, read_csv_new_keywords uploaded_file p = (kws, p1)
                                /\ Forall normalised kws).
  { unfold read_csv_new_keywords. destruct uploaded_file as [[cells|]|];
      do 2 eexists; (split; [reflexivity|]);
      try apply clean_keywords_normalised; constructor. }
  destruct Hcsv as (kws & p1 & -> & Hk). simpl.
  apply update_at_Forall; [|assumption].
  intros x [_ Hx]. split; simpl; [apply sorted_set_sorted|].
  apply sorted_set_Forall. apply Forall_app. split; [assumption|].
  apply Forall_app. split; [apply clean_keywords_normalised | assumption].
Qed.

Lemma delete_keyword_keywords_ok kw_idx p :
  Forall keywords_ok (companies (page_session p)) ->
  Forall keywords_ok (companies (page_session (delete_keyword kw_idx p))).
Proof.
  intros H. unfold delete_keyword.
  destruct (editing_company_id p) as [id|]; [|assumption].
  destruct (company_to_edit_index id _) as [idx|]; [|assumption].
  destruct (nth_error _ idx) as [c|]; [|assumption].
  destruct (nth_error (c_keywords c) kw_idx) as [kw|]; [|assumption].
  destruct (find_index _ _) as [i|]; simpl; [|assumption].
  apply update_at_Forall; [|assumption].
  intros x [Hs Hn]. split; simpl; [now apply pop_sorted | now apply pop_Forall].
Qed.

(** X3.  The keyword list of every company stays in strictly increasing order
    (hence without duplicates) and holds only keywords that are not empty,
    lower-cased and trimmed, through every handler of the page "Manage
    Companies": adding a company, saving the edit form, deleting a keyword
    and removing a company. *)
Theorem keywords_stay_normalised (p : page) :
  Forall keywords_ok (companies (page_session p)) ->
  (forall name description keywords_str uploaded_file,
      Forall keywords_ok
             (companies (add_company uuid4 name description keywords_str uploaded_file
                                     (page_session p))))
  /\ (forall name description keywords_str uploaded_file,
         Forall keywords_ok
                (companies (page_session (save_changes name description keywords_str
                                                       uploaded_file p))))
  /\ (forall kw_idx,
         Forall keywords_ok (companies (page_session (delete_keyword kw_idx p))))
  /\ (forall i, Forall keywords_ok (companies (remove_company i (page_session p)))).
Proof.
  intros H. split; [|split; [|split]].
  - intros. now apply add_company_keywords_ok.
  - intros. now apply save_changes_keywords_ok.
  - intros. now apply delete_keyword_keywords_ok.
  - intros i. unfold remove_company.
    destruct (nth_error (companies (page_session p)) i); simpl; [|assumption].
    now apply pop_Forall.
Qed.

End Handlers.

Lemma keywords_stay_normalised_witness :
  Forall keywords_ok
         (companies (page_session
                       (save_changes "Acme" "a supplier" " ACME Corp , acme" None
                                     (mkPage Sample.triage_session (Some "c-acme"%string) [])))).
Proof.
  assert (H0 : Forall keywords_ok
                      (companies (page_session
                                    (mkPage Sample.triage_session (Some "c-acme"%string) [])))).
  { repeat constructor; simpl; try discriminate; reflexivity. }
  destruct (keywords_stay_normalised Sample.uuid4 _ H0) as (_ & H & _).
  apply H.
Defined.

End Keywords.

(* ------------------------------------------------------------------ *)
(** ** The edit form *)

Module Edit.
Import PyStr Spec PyStrFacts Containers.
Local Open Scope list_scope.

Lemma notices_since_app (p p' : page) (ns : list notice) :
  notices p' = notices p ++ ns -> notices_since p p' = ns.
Proof.
  unfold notices_since. intros ->. rewrite skipn_app, Nat.sub_diag, skipn_all. reflexivity.
Qed.

Lemma notices_since_same (p p' : page) :
  notices p' = notices p -> notices_since p p' = [].
Proof. intros H. apply notices_since_app. now rewrite app_nil_r. Qed.

Lemma update_at_nth {A : Type} (f : A -> A) (l : list A) (i : nat) (x : A) :
  nth_error l i = Some x ->
  nth_error (update_at i f l) i = Some (f x)
  /\ forall j, j <> i -> nth_error (update_at i f l) j = nth_error l j.
Proof.
  revert i. induction l as [|y l IH]; intros [|i]; simpl; try discriminate.
  - intros [= ->]. split; [reflexivity|]. intros [|j] Hj; [congruence | reflexivity].
  - intros H. destruct (IH i H) as [H1 H2]. split; [exact H1|].
    intros [|j] Hj; [reflexivity | apply H2; congruence].
Qed.

Lemma company_to_edit_index_Some (id : string) (cs : list company) (idx : nat) :
  company_to_edit_index id cs = Some idx ->
  exists l1 c l2, cs = l1 ++ c :: l2 /\ length l1 = idx /\ c_id c = id.
Proof.
  intros H. destruct (find_index_Some _ _ _ H) as (l1 & c & l2 & Hcs & Hl & Hc & _).
  apply String.eqb_eq in Hc. eauto 6.
Qed.

Lemma read_csv_new_keywords_spec (uploaded_file : option csv_upload) (p : page) :
  exists ns,
    read_csv_new_keywords uploaded_file p
    = (clean_keywords match uploaded_file with
                      | Some (CsvFirstColumn cells) => cells
                      | _ => []
                      end,
       mkPage (page_session p) (editing_company_id p) (notices p ++ ns)).
Proof.
  unfold read_csv_new_keywords. destruct uploaded_file as [[cells|]|].
  - eexists. reflexivity.
  - eexists. reflexivity.
  - exists []. rewrite app_nil_r. now destruct p.
Qed.

(** The second condition of line 154-155, in words. *)
Lemma other_company_has_name (name : string) (c : company) (cs : list company) :
  negb (String.eqb (lower name) (lower (c_name c)))
  && existsb (fun c' => String.eqb (lower (c_name c')) (lower name)
                        && negb (String.eqb (c_id c') (c_id c))) cs = true
  <-> lower name <> lower (c_name c)
      /\ exists c', In c' cs /\ lower (c_name c') = lower name /\ c_id c' <> c_id c.
Proof.
  rewrite andb_true_iff, negb_true_iff, String.eqb_neq, existsb_exists.
  split; intros [H (c' & Hin & Hc)]; (split; [exact H|]); exists c'; (split; [exact Hin|]).
  - apply andb_true_iff in Hc as [H1 H2]. apply String.eqb_eq in H1.
    apply negb_true_iff, String.eqb_neq in H2. auto.
  - destruct Hc as [H1 H2]. apply andb_true_iff. split; [now apply String.eqb_eq|].
    now apply negb_true_iff, String.eqb_neq.
Qed.

(** X4.  The button "Save Changes" is refused, with its error shown, the
    session untouched and the form still open, exactly when the name is
    empty or differs up to case from the company's own and is the name, up
    to case, of a company with another id.  Otherwise the company keeps its
    id and its place, takes the name and the description, and gets as
    keywords its old ones and the new entries (trimmed, lower-cased), each
    once and in increasing order; no other company and no alert changes,
    the registry is saved and the form is closed. *)
Theorem save_changes_spec (edited_name edited_description new_keywords_str : string)
        (new_uploaded_file : option csv_upload) (p : page)
        (id : string) (idx : nat) (c : company) :
  editing_company_id p = Some id ->
  company_to_edit_index id (companies (page_session p)) = Some idx ->
  nth_error (companies (page_session p)) idx = Some c ->
  let s := page_session p in
  let p' := save_changes edited_name edited_description new_keywords_str new_uploaded_file p in
  let refused :=
    edited_name = EmptyString
    \/ (lower edited_name <> lower (c_name c)
        /\ exists c', In c' (companies s) /\ lower (c_name c') = lower edited_name
                      /\ c_id c' <> c_id c) in
  (refused ->
   page_session p' = s
   /\ editing_company_id p' = Some id
   /\ exists n, notices_since p p' = [n]
                /\ (n = ErrNameEmpty \/ n = ErrAnotherCompany edited_name))
  /\ (~ refused ->
      nth_error (companies (page_session p')) idx
      = Some (mkCompany (c_id c) edited_name edited_description
                (sorted_set (c_keywords c
                             ++ clean_keywords (Spec.raw_keywords new_keywords_str
                                                                  new_uploaded_file))))
      /\ (forall j, j <> idx ->
                    nth_error (companies (page_session p')) j = nth_error (companies s) j)
      /\ alerts (page_session p') = alerts s
      /\ editing_company_id p' = None
      /\ In (SaveCompanies (companies (page_session p'))) (events_since s (page_session p'))
      /\ In (OkCompanyUpdated edited_name) (notices_since p p')).
Proof.
  intros He Hi Hn. cbv zeta. unfold save_changes. rewrite He, Hi, Hn.
  destruct (truthy edited_name) eqn:Et; simpl.
  2:{ apply truthy_false in Et. split; [|tauto]. intros _.
      split; [reflexivity|]. split; [exact He|].
      exists ErrNameEmpty. split; [|now left]. now apply notices_since_app. }
  apply truthy_true in Et.
  match goal with |- context [if ?b then _ else _] => destruct b eqn:Eb end.
  - apply other_company_has_name in Eb. split; [|tauto]. intros _.
    split; [reflexivity|]. split; [exact He|].
    exists (ErrAnotherCompany edited_name). split; [|now right]. now apply notices_since_app.
  - assert (Hnot : ~ (lower edited_name <> lower (c_name c)
                      /\ exists c', In c' (companies (page_session p))
                                    /\ lower (c_name c') = lower edited_name
                                    /\ c_id c' <> c_id c)).
    { rewrite <- other_company_has_name. congruence. }
    split; [tauto|]. intros _.
    destruct (read_csv_new_keywords_spec new_uploaded_file p) as (ns & ->). simpl.
    destruct (update_at_nth
                (fun c0 => set_keywords
                             (sorted_set (c_keywords c0
                                          ++ clean_keywords (split "," new_keywords_str)
                                          ++ clean_keywords
                                               match new_uploaded_file with
                                               | Some (CsvFirstColumn cells) => cells
                                               | _ => []
                                               end))
                             (set_name_description edited_name edited_description c0))
                _ _ _ Hn) as [H1 H2].
    split; [|split; [exact H2|split; [reflexivity|split; [reflexivity|split]]]].
    + rewrite H1. unfold set_keywords, set_name_description, Spec.raw_keywords. simpl.
      now rewrite Registry.clean_keywords_app.
    + rewrite (Fetch.events_since_app (page_session p) _
                 [SaveCompanies
                    (update_at idx
                       (fun c0 => set_keywords
                                    (sorted_set
                                       (c_keywords c0
                                        ++ clean_keywords (split "," new_keywords_str)
                                        ++ clean_keywords
                                             match new_uploaded_file with
                                             | Some (CsvFirstColumn cells) => cells
                                             | _ => []
                                             end))
                                    (set_name_description edited_name edited_description c0))
                       (companies (page_session p))); Rerun]).
      * now left.
      * unfold save_companies, emit. simpl. now rewrite <- app_assoc.
    + rewrite (notices_since_app p _ (ns ++ [OkCompanyUpdated edited_name])).
      * apply in_or_app. right. now left.
      * simpl. now rewrite app_assoc.
Qed.

(** Renaming "Acme" to "ACME" is accepted; naming it "globex" is not. *)
Lemma save_changes_spec_witness :
  let p := mkPage Sample.triage_session (Some "c-acme"%string) [] in
  map c_name (companies (page_session (save_changes "ACME" "" "" None p)))
  = ["ACME"; "Globex"]%string
  /\ page_session (save_changes "globex" "" "" None p) = Sample.triage_session.
Proof.
  cbv zeta.
  destruct (save_changes_spec "globex" "" "" None
              (mkPage Sample.triage_session (Some "c-acme"%string) [])
              "c-acme" 0 Sample.acme eq_refl eq_refl eq_refl) as [Href _].
  split; [reflexivity|]. apply Href. right. split; [discriminate|].
  exists Sample.globex. split; [right; now left|]. split; [reflexivity | discriminate].
Defined.

End Edit.

(* ------------------------------------------------------------------ *)
(** ** Deleting a keyword *)

Module DeleteKeyword.
Import PyStr Spec PyStrFacts Containers.
Local Open Scope list_scope.

Lemma index_of_member (kw : string) (kws : list string) (i : nat) :
  nth_error kws i = Some kw ->
  exists k1 k2, find_index (String.eqb kw) kws = Some (length k1)
                /\ kws = k1 ++ kw :: k2 /\ ~ In kw k1.
Proof.
  intros H. destruct (find_index (String.eqb kw) kws) as [j|] eqn:E.
  - destruct (find_index_Some _ _ _ E) as (k1 & x & k2 & -> & Hl & Hx & Hf).
    apply String.eqb_eq in Hx. subst x j. exists k1, k2. split; [reflexivity|].
    split; [reflexivity|]. intros Hin. rewrite Forall_forall in Hf.
    specialize (Hf kw Hin). now rewrite String.eqb_refl in Hf.
  - exfalso. apply find_index_None in E. rewrite Forall_forall in E.
    apply nth_error_In in H. specialize (E kw H). now rewrite String.eqb_refl in E.
Qed.

(** X5.  The button "Del" of a keyword removes the first occurrence of that
    keyword from the keywords of the company that is edited, and so the
    keyword itself when the list has it once; the other keywords, the other
    companies and the alerts stay as they are, the registry is saved and
    the form stays open. *)
Theorem delete_keyword_spec (kw_idx : nat) (p : page)
        (id : string) (idx : nat) (c : company) (kw : string) :
  editing_company_id p = Some id ->
  company_to_edit_index id (companies (page_session p)) = Some idx ->
  nth_error (companies (page_session p)) idx = Some c ->
  nth_error (c_keywords c) kw_idx = Some kw ->
  let s := page_session p in
  let p' := delete_keyword kw_idx p in
  exists k1 k2,
    c_keywords c = k1 ++ kw :: k2
    /\ ~ In kw k1
    /\ (NoDup (c_keywords c) -> ~ In kw (k1 ++ k2))
    /\ nth_error (companies (page_session p')) idx = Some (set_keywords (k1 ++ k2) c)
    /\ (forall j, j <> idx ->
                  nth_error (companies (page_session p')) j = nth_error (companies s) j)
    /\ alerts (page_session p') = alerts s
    /\ editing_company_id p' = Some id
    /\ events_since s (page_session p')
       = [SaveCompanies (companies (page_session p')); Rerun]
    /\ notices_since p p' = [OkKeywordRemoved kw].
Proof.
  intros He Hi Hn Hk. cbv zeta. unfold delete_keyword. rewrite He, Hi, Hn, Hk.
  destruct (index_of_member kw (c_keywords c) kw_idx Hk) as (k1 & k2 & -> & Hkw & Hk1).
  exists k1, k2. split; [exact Hkw|]. split; [exact Hk1|]. split.
  { rewrite Hkw. intros Hnd. apply NoDup_remove_2 in Hnd. exact Hnd. }
  destruct (Edit.update_at_nth
              (fun c0 => set_keywords (pop (length k1) (c_keywords c0)) c0) _ _ _ Hn)
    as [H1 H2].
  simpl. split; [|split; [exact H2|split; [reflexivity|split; [exact He|split]]]].
  - rewrite H1. now rewrite Hkw, pop_middle.
  - apply Fetch.events_since_app. unfold save_companies, emit. simpl.
    now rewrite <- app_assoc.
  - now apply Edit.notices_since_app.
Qed.

Lemma delete_keyword_spec_witness :
  let p := mkPage Sample.triage_session (Some "c-acme"%string) [] in
  exists k1 k2,
    c_keywords Sample.acme = k1 ++ "acme"%string :: k2
    /\ nth_error (companies (page_session (delete_keyword 0 p))) 0
       = Some (set_keywords (k1 ++ k2) Sample.acme)
    /\ notices_since p (delete_keyword 0 p) = [OkKeywordRemoved "acme"].
Proof.
  cbv zeta.
  destruct (delete_keyword_spec 0 (mkPage Sample.triage_session (Some "c-acme"%string) [])
              "c-acme" 0 Sample.acme "acme" eq_refl eq_refl eq_refl eq_refl)
    as (k1 & k2 & H1 & _ & _ & H2 & _ & _ & _ & _ & H3).
  exists k1, k2. auto.
Defined.

(** X6.  The warning that the keyword was already removed is never shown: the
    keyword of the button is a keyword of the list that [index] searches. *)
Theorem delete_keyword_never_warns (kw_idx : nat) (p : page) (kw : string) :
  ~ In (WarnKeywordGone kw) (notices_since p (delete_keyword kw_idx p)).
Proof.
  unfold delete_keyword.
  destruct (editing_company_id p) as [id|];
    [|rewrite Edit.notices_since_same by reflexivity; intros []].
  destruct (company_to_edit_index id _) as [idx|];
    [|rewrite Edit.notices_since_same by reflexivity; intros []].
  destruct (nth_error _ idx) as [c|];
    [|rewrite Edit.notices_since_same by reflexivity; intros []].
  destruct (nth_error (c_keywords c) kw_idx) as [k|] eqn:Ek;
    [|rewrite Edit.notices_since_same by reflexivity; intros []].
  destruct (index_of_member k (c_keywords c) kw_idx Ek) as (k1 & k2 & -> & _).
  rewrite (Edit.notices_since_app p _ [OkKeywordRemoved k]) by reflexivity.
  intros [H|[]]. discriminate.
Qed.

End DeleteKeyword.

(* ------------------------------------------------------------------ *)
(** ** Names and ids of the registry *)

Module RegistryNames.
Import PyStr Spec PyStrFacts Containers.
Local Open Scope list_scope.

Lemma name_not_taken (name : string) (cs : list company) :
  name_taken name cs = false -> ~ In (lower name) (map (fun c => lower (c_name c)) cs).
Proof.
  intros H Hin. apply in_map_iff in Hin as (c & Hc & Hin).
  assert (name_taken name cs = true); [|congruence].
  apply Registry.name_taken_spec. now exists c.
Qed.

Lemma NoDup_replace {A : Type} (l1 l2 : list A) (x y : A) :
  NoDup (l1 ++ x :: l2) -> ~ In y (l1 ++ l2) -> NoDup (l1 ++ y :: l2).
Proof.
  intros H Hy. apply NoDup_remove_1 in H.
  apply (Permutation_NoDup (l := y :: l1 ++ l2)); [apply Permutation_middle|].
  now constructor.
Qed.

Section Handlers.
Variable uuid4 : nat -> string.

Lemma add_company_names name description keywords_str uploaded_file s :
  names_unique (companies s) ->
  names_unique (companies (add_company uuid4 name description keywords_str uploaded_file s))
  /\ (ids_unique (companies s) ->
      ~ In (uuid4 (uuids_drawn s)) (map c_id (companies s)) ->
      ids_unique (companies (add_company uuid4 name description keywords_str
                                         uploaded_file s))).
Proof.
  intros H. unfold add_company. destruct (truthy name); simpl; [|now split].
  destruct (Registry.read_csv_keywords_spec uploaded_file s) as (evs & -> & _).
  destruct (sorted_set _) as [|k ks]; simpl; [now split|].
  destruct (name_taken name (companies s)) eqn:E; simpl; [now split|].
  unfold names_unique, ids_unique. rewrite !map_app. simpl. split.
  - apply Refetch.NoDup_snoc; [exact H | now apply name_not_taken].
  - intros Hi Hf. now apply Refetch.NoDup_snoc.
Qed.

Lemma save_changes_names name description keywords_str uploaded_file p :
  names_unique (companies (page_session p)) ->
  ids_unique (companies (page_session p)) ->
  names_unique (companies (page_session (save_changes name description keywords_str
                                                      uploaded_file p)))
  /\ ids_unique (companies (page_session (save_changes name description keywords_str
                                                       uploaded_file p))).
Proof.
  intros Hn Hi. unfold save_changes.
  destruct (editing_company_id p) as [id|]; [|now split].
  destruct (company_to_edit_index id _) as [idx|] eqn:Ei; [|now split].
  destruct (Edit.company_to_edit_index_Some _ _ _ Ei) as (l1 & c & l2 & Hcs & Hl & Hid).
  assert (Hnth : nth_error (companies (page_session p)) idx = Some c).
  { rewrite Hcs, <- Hl. apply nth_error_middle. }
  rewrite Hnth.
  destruct (negb (truthy name)); [now split|].
  match goal with |- context [if ?b then _ else _] => destruct b eqn:Eb end; [now split|].
  destruct (Edit.read_csv_new_keywords_spec uploaded_file p) as (ns & ->). simpl.
  split.
  - unfold names_unique in *. rewrite Hcs in *. rewrite <- Hl, update_at_middle.
    rewrite map_app in *. simpl in *.
    destruct (String.eqb (lower name) (lower (c_name c))) eqn:En.
    + apply String.eqb_eq in En. now rewrite En.
    + apply (NoDup_replace _ _ _ _ Hn). simpl in Eb.
      intros Hin. rewrite <- map_app in Hin. apply in_map_iff in Hin as (c' & Hc' & Hin).
      assert (Hex : existsb (fun c0 => String.eqb (lower (c_name c0)) (lower name)
                                       && negb (String.eqb (c_id c0) (c_id c)))
                            (l1 ++ c :: l2) = false) by exact Eb.
      assert (Hsame : c_id c' = c_id c).
      { destruct (String.eqb_spec (c_id c') (c_id c)) as [|Hne]; [assumption|].
        exfalso. assert (Ht : existsb (fun c0 => String.eqb (lower (c_name c0)) (lower name)
                                                 && negb (String.eqb (c_id c0) (c_id c)))
                                      (l1 ++ c :: l2) = true); [|congruence].
        apply existsb_exists. exists c'. split.
        - apply in_app_or in Hin as [Hin|Hin]; apply in_or_app; [now left | right; now right].
        - apply andb_true_iff. split; [now apply String.eqb_eq|].
          now apply negb_true_iff, String.eqb_neq. }
      unfold ids_unique in Hi. rewrite map_app in Hi. simpl in Hi.
      apply NoDup_remove_2 in Hi. apply Hi. rewrite <- Hsame, <- map_app.
      now apply in_map.
  - unfold ids_unique in *. now rewrite update_at_map.
Qed.

Lemma delete_keyword_names kw_idx p :
  map c_name (companies (page_session (delete_keyword kw_idx p)))
  = map c_name (companies (page_session p))
  /\ map c_id (companies (page_session (delete_keyword kw_idx p)))
     = map c_id (companies (page_session p)).
Proof.
  unfold delete_keyword.
  destruct (editing_company_id p) as [id|]; [|now split].
  destruct (company_to_edit_index id _) as [idx|]; [|now split].
  destruct (nth_error _ idx) as [c|]; [|now split].
  destruct (nth_error (c_keywords c) kw_idx) as [kw|]; [|now split].
  destruct (find_index _ _) as [i|]; simpl; [|now split].
  split; now apply update_at_map.
Qed.

(** X7.  No handler of the page "Manage Companies" makes two companies share a
    name up to case, or an id: adding a company (its id being one that no
    company has), saving the edit form, deleting a keyword and removing a
    company keep both. *)
Theorem names_and_ids_stay_unique (p : page) :
  names_unique (companies (page_session p)) ->
  ids_unique (companies (page_session p)) ->
  (forall name description keywords_str uploaded_file,
      let s' := add_company uuid4 name description keywords_str uploaded_file
                            (page_session p) in
      names_unique (companies s')
      /\ (~ In (uuid4 (uuids_drawn (page_session p))) (map c_id (companies (page_session p)))
          -> ids_unique (companies s')))
  /\ (forall name description keywords_str uploaded_file,
         let p' := save_changes name description keywords_str uploaded_file p in
         names_unique (companies (page_session p'))
         /\ ids_unique (companies (page_session p')))
  /\ (forall kw_idx,
         names_unique (companies (page_session (delete_keyword kw_idx p)))
         /\ ids_unique (companies (page_session (delete_keyword kw_idx p))))
  /\ (forall i,
         names_unique (companies (remove_company i (page_session p)))
         /\ ids_unique (companies (remove_company i (page_session p)))).
Proof.
  intros Hn Hi. split; [|split; [|split]].
  - intros name description keywords_str uploaded_file. cbv zeta.
    destruct (add_company_names name description keywords_str uploaded_file
                                (page_session p) Hn) as [H1 H2].
    split; [exact H1 | now apply H2].
  - intros. now apply save_changes_names.
  - intros kw_idx. destruct (delete_keyword_names kw_idx p) as [H1 H2].
    unfold names_unique, ids_unique in *. rewrite H2. split; [|assumption].
    rewrite <- (map_map c_name lower), H1, map_map. assumption.
  - intros i. unfold remove_company.
    destruct (nth_error (companies (page_session p)) i); simpl; [|now split].
    unfold names_unique, ids_unique. rewrite !pop_map. split; now apply pop_NoDup.
Qed.

End Handlers.

Lemma names_and_ids_stay_unique_witness :
  let p := mkPage Sample.triage_session (Some "c-globex"%string) [] in
  names_unique (companies (page_session (save_changes "Initech" "" "tps" None p)))
  /\ ids_unique (companies (page_session (save_changes "Initech" "" "tps" None p))).
Proof.
  cbv zeta.
  assert (Hn : names_unique (companies Sample.triage_session)).
  { unfold names_unique. simpl. repeat constructor; simpl; intuition discriminate. }
  assert (Hi : ids_unique (companies Sample.triage_session)).
  { unfold ids_unique. simpl. repeat constructor; simpl; intuition discriminate. }
  destruct (names_and_ids_stay_unique Sample.uuid4
              (mkPage Sample.triage_session (Some "c-globex"%string) []) Hn Hi)
    as (_ & H & _).
  apply H.
Defined.

End RegistryNames.

(* ------------------------------------------------------------------ *)
(** ** The alert list *)

Module AlertList.
Import PyStr Spec PyStrFacts Containers.
Local Open Scope list_scope.

Lemma chosen_spec (filter value : string) :
  negb (String.eqb filter "All") && negb (String.eqb value filter) = false
  <-> chosen filter value.
Proof.
  unfold chosen. rewrite andb_false_iff, !negb_false_iff, !String.eqb_eq. tauto.
Qed.

Lemma displayed_spec window today filter_company_name filter_status (a : alert) :
  displayed window today filter_company_name filter_status a = true
  <-> in_window window today (ad_date (a_api_data a))
      /\ chosen filter_company_name (a_company_name a)
      /\ chosen filter_status (a_status a).
Proof.
  unfold displayed.
  assert (Hw : alert_date_filter window today a = Pass
               <-> in_window window today (ad_date (a_api_data a))).
  { destruct window as [w|]; [|simpl; tauto]. unfold in_window.
    rewrite <- (Recency.alert_date_filter_bounded w today a).
    destruct (alert_date_filter (Some w) today a); intuition congruence. }
  rewrite <- Hw, <- !chosen_spec.
  destruct (alert_date_filter window today a); [split; [discriminate | intros [H _]; discriminate]|].
  destruct (negb (String.eqb filter_company_name "All")
            && negb (String.eqb (a_company_name a) filter_company_name));
    [split; [discriminate | intros (_ & H & _); discriminate]|].
  destruct (negb (String.eqb filter_status "All")
            && negb (String.eqb (a_status a) filter_status));
    [split; [discriminate | intros (_ & _ & H); discriminate] | tauto].
Qed.

Lemma sorted_alerts_all_sorted (al : list alert) :
  StronglySorted shown_before (sorted_alerts_all al).
Proof.
  unfold sorted_alerts_all.
  set (by_time := fun a b : alert => String.leb (timestamp_key b) (timestamp_key a)).
  set (by_rank := fun a b : alert => status_order (a_status a) <=? status_order (a_status b)).
  assert (Htime : StronglySorted (fun a b => by_time a b = true) (py_sorted by_time al)).
  { apply (StronglySorted_weaken (key_then_before by_time (fun _ _ => True)));
      [intros a b [H _]; exact H|].
    apply py_sorted_stable.
    - intros a b. apply String.leb_total.
    - intros a b c H1 H2. unfold by_time in *. eapply leb_trans; eassumption.
    - clear. induction al; constructor; [assumption|]. now apply Forall_forall. }
  apply (StronglySorted_weaken
           (key_then_before by_rank (fun a b => by_time a b = true))).
  - intros a b [H1 H2]. unfold by_rank, shown_before in *. apply Z.leb_le in H1.
    destruct (Z.eq_dec (status_order (a_status a)) (status_order (a_status b))) as [E|E].
    + right. split; [assumption|]. apply H2. apply Z.leb_le. lia.
    + left. lia.
  - apply py_sorted_stable; [| |exact Htime].
    + intros a b. unfold by_rank. rewrite !Z.leb_le. lia.
    + intros a b c. unfold by_rank. rewrite !Z.leb_le. lia.
Qed.

Lemma sorted_alerts_all_perm (al : list alert) : Permutation al (sorted_alerts_all al).
Proof. unfold sorted_alerts_all. etransitivity; apply py_sorted_perm. Qed.

Lemma alerts_to_display_In window today filter_company_name filter_status s (a : alert) :
  In a (alerts_to_display window today filter_company_name filter_status s)
  <-> In a (alerts s)
      /\ displayed window today filter_company_name filter_status a = true.
Proof.
  unfold alerts_to_display. rewrite filter_In. split; intros [H1 H2]; (split; [|exact H2]).
  - apply (Permutation_in _ (Permutation_sym (sorted_alerts_all_perm (alerts s)))), H1.
  - apply (Permutation_in _ (sorted_alerts_all_perm (alerts s))), H1.
Qed.

(** X8.  The list shows exactly the alerts of the collection whose reported
    date is within the window, whose company name is the chosen one and
    whose status is the chosen one ("All" lets every name or status
    through), in the displayed order; with no window and both choices "All"
    it shows the whole collection. *)
Theorem alerts_to_display_spec window today filter_company_name filter_status (s : session) :
  (forall a,
      In a (alerts_to_display window today filter_company_name filter_status s)
      <-> In a (alerts s)
          /\ in_window window today (ad_date (a_api_data a))
          /\ chosen filter_company_name (a_company_name a)
          /\ chosen filter_status (a_status a))
  /\ StronglySorted shown_before
                    (alerts_to_display window today filter_company_name filter_status s)
  /\ Permutation (alerts s) (alerts_to_display None today "All" "All" s).
Proof.
  split; [|split].
  - intros a. now rewrite alerts_to_display_In, displayed_spec.
  - unfold alerts_to_display. apply filter_sorted, sorted_alerts_all_sorted.
  - unfold alerts_to_display.
    rewrite forallb_filter_id.
    + apply sorted_alerts_all_perm.
    + apply forallb_forall. intros a _. apply displayed_spec.
      unfold chosen. simpl. auto.
Qed.

(** X9.  The alerts keep the name that the company had when they were found:
    after the edit form has given the company another name, the company's
    earlier alerts are still in the collection under the old name, and the
    list filtered by the new name shows none of them. *)
Theorem renamed_company_alerts_keep_old_name
        (edited_name edited_description new_keywords_str : string)
        (new_uploaded_file : option csv_upload) (p : page) (a : alert)
        window today filter_status :
  In a (alerts (page_session p)) ->
  a_company_name a <> edited_name ->
  edited_name <> "All"%string ->
  let p' := save_changes edited_name edited_description new_keywords_str new_uploaded_file p in
  In a (alerts (page_session p'))
  /\ ~ In a (alerts_to_display window today edited_name filter_status (page_session p')).
Proof.
  intros Ha Hn Hall. cbv zeta.
  assert (Hal : alerts (page_session (save_changes edited_name edited_description
                                                   new_keywords_str new_uploaded_file p))
                = alerts (page_session p)).
  { unfold save_changes.
    destruct (editing_company_id p) as [id|]; [|reflexivity].
    destruct (company_to_edit_index id _) as [idx|]; [|reflexivity].
    destruct (nth_error _ idx) as [c|]; [|reflexivity].
    destruct (negb (truthy edited_name)); [reflexivity|].
    match goal with |- context [if ?b then _ else _] => destruct b end; [reflexivity|].
    destruct (Edit.read_csv_new_keywords_spec new_uploaded_file p) as (ns & ->).
    reflexivity. }
  split; [now rewrite Hal|].
  rewrite alerts_to_display_In, displayed_spec. intros (_ & _ & [H|H] & _); congruence.
Qed.

Lemma renamed_company_alerts_keep_old_name_witness :
  let a := Sample.alert_of "a-1" "c-acme" "Acme" "Open" in
  let p' := save_changes "Acme Ltd" "" "" None
                         (mkPage Sample.triage_session (Some "c-acme"%string) []) in
  In a (alerts (page_session p'))
  /\ ~ In a (alerts_to_display None Sample.today "Acme Ltd" "All" (page_session p')).
Proof.
  apply (renamed_company_alerts_keep_old_name "Acme Ltd" "" "" None
           (mkPage Sample.triage_session (Some "c-acme"%string) [])
           (Sample.alert_of "a-1" "c-acme" "Acme" "Open") None Sample.today "All").
  - now left.
  - discriminate.
  - discriminate.
Defined.

End AlertList.

(* ------------------------------------------------------------------ *)
(** ** Selecting alerts *)

Module Selection.
Import PyStr Spec PyStrFacts Containers.
Local Open Scope list_scope.

Lemma select_each_get (v : bool) (visible : list alert) (sel : list (string * bool))
      (k : string) :
  dict_get k (select_each v visible sel)
  = if mem k (map a_id visible) then v else dict_get k sel.
Proof.
  unfold select_each. revert sel. induction visible as [|a visible IH]; intros sel; simpl.
  - reflexivity.
  - rewrite IH. destruct (mem k (map a_id visible)) eqn:E.
    + now rewrite orb_true_r.
    + rewrite orb_false_r. destruct (String.eqb_spec k (a_id a)) as [->|Hne].
      * apply dict_get_set_same.
      * now apply dict_get_set_other.
Qed.

Lemma select_each_keys (v : bool) (visible : list alert) (sel : list (string * bool)) :
  keys_unique sel -> keys_unique (select_each v visible sel).
Proof.
  unfold select_each. revert sel. induction visible as [|a visible IH]; intros sel H; simpl.
  - assumption.
  - apply IH. now apply dict_set_keys.
Qed.

(** X10.  The checkbox "Select / Deselect All Visible Alerts" changes only the
    selection, and in it only the entries of the displayed alerts: checked,
    it leaves every displayed alert selected; unchecked while all of them
    are selected, it leaves none of them selected; unchecked while some are
    not, it changes nothing. *)
Theorem select_all_visible_spec (checked : bool) (visible : list alert) (s : session) :
  let s' := select_all_visible checked visible s in
  companies s' = companies s
  /\ alerts s' = alerts s
  /\ (forall id, ~ In id (map a_id visible) ->
                 dict_get id (selected_alerts s') = dict_get id (selected_alerts s))
  /\ (checked = true ->
      forall a, In a visible -> dict_get (a_id a) (selected_alerts s') = true)
  /\ (checked = false ->
      all_visible_are_selected visible (selected_alerts s) = true ->
      forall a, In a visible -> dict_get (a_id a) (selected_alerts s') = false)
  /\ (checked = false ->
      all_visible_are_selected visible (selected_alerts s) = false -> s' = s).
Proof.
  cbv zeta. unfold select_all_visible.
  destruct visible as [|a0 visible0] eqn:Ev.
  { repeat split; auto; try contradiction. }
  rewrite <- Ev. clear Ev a0 visible0.
  assert (Hall : all_visible_are_selected visible (selected_alerts s) = true ->
                 forall a, In a visible -> dict_get (a_id a) (selected_alerts s) = true).
  { unfold all_visible_are_selected. rewrite forallb_forall. auto. }
  assert (Hin : forall a, In a visible -> mem (a_id a) (map a_id visible) = true).
  { intros a Ha. apply mem_spec. now apply in_map. }
  assert (Hout : forall id, ~ In id (map a_id visible) -> mem id (map a_id visible) = false).
  { intros id H. apply not_true_is_false. now rewrite mem_spec. }
  destruct checked, (all_visible_are_selected visible (selected_alerts s)) eqn:E; simpl;
    (split; [reflexivity|]); (split; [reflexivity|]); (split; [|split; [|split]]);
    try discriminate; try reflexivity; try (intros; reflexivity);
    try (intros id H; rewrite select_each_get; now rewrite (Hout id H));
    try (intros _ a Ha; rewrite select_each_get; now rewrite (Hin a Ha));
    try (intros _ _ a Ha; rewrite select_each_get; now rewrite (Hin a Ha)).
  intros _ a Ha. now apply Hall.
Qed.

Lemma reset_ids_get (ids : list string) (sel : list (string * bool)) (k : string) :
  dict_get k (fold_left (fun d id_updated => dict_set id_updated false d) ids sel)
  = if mem k ids then false else dict_get k sel.
Proof.
  revert sel. induction ids as [|id ids IH]; intros sel; simpl; [reflexivity|].
  rewrite IH. destruct (mem k ids) eqn:E.
  - now rewrite orb_true_r.
  - rewrite orb_false_r. destruct (String.eqb_spec k id) as [->|Hne].
    + apply dict_get_set_same.
    + now apply dict_get_set_other.
Qed.

Lemma reset_ids_keys (ids : list string) (sel : list (string * bool)) :
  keys_unique sel ->
  keys_unique (fold_left (fun d id_updated => dict_set id_updated false d) ids sel).
Proof.
  revert sel. induction ids as [|id ids IH]; intros sel H; simpl; [assumption|].
  apply IH. now apply dict_set_keys.
Qed.

Lemma bulk_set_status_selection (ids : list string) (status : string) (s : session) :
  (0 < snd (apply_status ids status (alerts s)))%nat ->
  selected_alerts (bulk_set_status ids status s)
  = fold_left (fun d id_updated => dict_set id_updated false d) ids (selected_alerts s)
  /\ alerts (bulk_set_status ids status s) = fst (apply_status ids status (alerts s)).
Proof.
  unfold bulk_set_status. intros H. destruct ids as [|id ids].
  - exfalso. destruct (Triage.apply_status_spec [] status (alerts s)) as [_ Hn].
    rewrite Hn in H. unfold requested in H.
    assert (E : filter (fun a => mem (a_id a) []) (alerts s) = []).
    { clear. induction (alerts s); simpl; auto. }
    rewrite E in H. simpl in H. lia.
  - destruct (apply_status (id :: ids) status (alerts s)) as [al n]. simpl in H.
    destruct (Nat.ltb_spec 0 n) as [_|]; [|lia]. split; reflexivity.
Qed.

(** X11.  After a bulk update that updated an alert, none of the requested ids
    is selected any more and the other entries of the selection are as
    they were; so the ids that the button would pass on next, whatever the
    displayed alerts, hold none of them. *)
Theorem bulk_update_clears_selection (ids : list string) (status : string) (s : session) :
  keys_unique (selected_alerts s) ->
  (0 < snd (apply_status ids status (alerts s)))%nat ->
  let s' := bulk_set_status ids status s in
  (forall id, In id ids -> dict_get id (selected_alerts s') = false)
  /\ (forall id, ~ In id ids ->
                 dict_get id (selected_alerts s') = dict_get id (selected_alerts s))
  /\ (forall visible id,
         In id (selected_ids_for_update visible (selected_alerts s')) -> ~ In id ids).
Proof.
  intros Hk Hn. cbv zeta.
  destruct (bulk_set_status_selection ids status s Hn) as [Hs _]. rewrite Hs.
  split; [|split].
  - intros id Hin. rewrite reset_ids_get. apply mem_spec in Hin. now rewrite Hin.
  - intros id Hin. rewrite reset_ids_get.
    replace (mem id ids) with false; [reflexivity|].
    symmetry. apply not_true_is_false. now rewrite mem_spec.
  - intros visible id Hin Hids.
    apply Triage.selected_ids_for_update_spec in Hin as [Hin _].
    apply dict_get_true_In in Hin; [|now apply reset_ids_keys].
    rewrite reset_ids_get in Hin. apply mem_spec in Hids. rewrite Hids in Hin. discriminate.
Qed.

Lemma bulk_update_clears_selection_witness :
  dict_get "a-1" (selected_alerts (bulk_set_status ["a-1"%string] "Complete"
                                                   Sample.triage_session)) = false.
Proof.
  assert (Hk : keys_unique (selected_alerts Sample.triage_session)).
  { unfold keys_unique. simpl. repeat constructor. intros []. }
  assert (Hn : (0 < snd (apply_status ["a-1"%string] "Complete"
                                      (alerts Sample.triage_session)))%nat).
  { vm_compute. constructor. }
  destruct (bulk_update_clears_selection ["a-1"%string] "Complete" Sample.triage_session Hk Hn)
    as (H & _).
  apply H. now left.
Defined.

End Selection.

(* ------------------------------------------------------------------ *)
(** ** Two clicks on "Apply Status to Selected" *)

Module BulkTwice.
Import PyStr Spec PyStrFacts Containers.
Local Open Scope list_scope.

Lemma Forall2_In_r {A B : Type} (R : A -> B -> Prop) (l : list A) (l' : list B) (y : B) :
  Forall2 R l l' -> In y l' -> exists x, In x l /\ R x y.
Proof.
  induction 1 as [|x y' l l' HR _ IH]; intros Hin; [contradiction|].
  destruct Hin as [->|Hin].
  - exists x. split; [now left | assumption].
  - destruct (IH Hin) as (x0 & Hx & HR0). exists x0. split; [now right | assumption].
Qed.

(** X12.  When the button has updated an alert, a second click, with the same
    window and the same choices of company and status, finds no displayed
    alert selected: it warns, and changes and saves nothing. *)
Theorem second_click_finds_none_selected
        window today filter_company_name filter_status
        (new_bulk_status next_status : string) (s : session) :
  keys_unique (selected_alerts s) ->
  (0 < snd (apply_status
              (selected_ids_for_update
                 (alerts_to_display window today filter_company_name filter_status s)
                 (selected_alerts s))
              new_bulk_status (alerts s)))%nat ->
  let s1 := bulk_apply_status window today filter_company_name filter_status
                              new_bulk_status s in
  let s2 := bulk_apply_status window today filter_company_name filter_status
                              next_status s1 in
  selected_ids_for_update
    (alerts_to_display window today filter_company_name filter_status s1)
    (selected_alerts s1) = []
  /\ alerts s2 = alerts s1
  /\ selected_alerts s2 = selected_alerts s1
  /\ events_since s1 s2 = [Show WarnNoneSelected].
Proof.
  intros Hk Hn. cbv zeta. unfold bulk_apply_status.
  set (ids := selected_ids_for_update
                (alerts_to_display window today filter_company_name filter_status s)
                (selected_alerts s)) in *.
  set (s1 := bulk_set_status ids new_bulk_status s).
  assert (Hnone : selected_ids_for_update
                    (alerts_to_display window today filter_company_name filter_status s1)
                    (selected_alerts s1) = []).
  { destruct (selected_ids_for_update _ (selected_alerts s1)) as [|id rest] eqn:E;
      [reflexivity|]. exfalso.
    assert (Hin : In id (selected_ids_for_update
                           (alerts_to_display window today filter_company_name
                                              filter_status s1)
                           (selected_alerts s1))) by (rewrite E; now left).
    apply Triage.selected_ids_for_update_spec in Hin as [Hsel (a1 & Ha1 & Hid)].
    destruct (Selection.bulk_set_status_selection ids new_bulk_status s Hn) as [Hs Hal].
    fold s1 in Hs, Hal.
    apply dict_get_true_In in Hsel;
      [|rewrite Hs; now apply Selection.reset_ids_keys].
    rewrite Hs, Selection.reset_ids_get in Hsel.
    destruct (mem id ids) eqn:Em; [discriminate|].
    apply AlertList.alerts_to_display_In in Ha1 as [Ha1 Hd]. rewrite Hal in Ha1.
    destruct (Triage.apply_status_spec ids new_bulk_status (alerts s)) as [Hf _].
    destruct (Forall2_In_r _ _ _ _ Hf Ha1) as (a0 & Ha0 & Hup & _ & Hsame).
    assert (Hid0 : a_id a0 = id) by (rewrite Hup in Hid; exact Hid).
    assert (Hnot : ~ In (a_id a0) ids).
    { rewrite Hid0, <- mem_spec. congruence. }
    specialize (Hsame Hnot). subst a1.
    assert (Hin : In id ids).
    { apply Triage.selected_ids_for_update_spec. split.
      - now apply dict_get_true_In.
      - exists a0. split; [|exact Hid0]. apply AlertList.alerts_to_display_In. now split. }
    apply mem_spec in Hin. congruence. }
  split; [exact Hnone|]. rewrite Hnone. simpl.
  split; [reflexivity|]. split; [reflexivity|].
  now apply Fetch.events_since_app.
Qed.

Lemma second_click_finds_none_selected_witness :
  let s1 := bulk_apply_status None Sample.today "All" "All" "Complete"
                              Sample.triage_session in
  let s2 := bulk_apply_status None Sample.today "All" "All" "Open" s1 in
  selected_ids_for_update (alerts_to_display None Sample.today "All" "All" s1)
                          (selected_alerts s1) = []
  /\ alerts s2 = alerts s1
  /\ selected_alerts s2 = selected_alerts s1
  /\ events_since s1 s2 = [Show WarnNoneSelected].
Proof.
  apply (second_click_finds_none_selected None Sample.today "All" "All" "Complete" "Open"
           Sample.triage_session).
  - unfold keys_unique. simpl. repeat constructor. intros [].
  - vm_compute. constructor.
Defined.

End BulkTwice.

(* ------------------------------------------------------------------ *)
(** ** Single alerts: the status select box and the delete button *)

Module AlertOps.
Import PyStr Spec PyStrFacts Containers.
Local Open Scope list_scope.

(** The alert that the handlers of a displayed alert work on: the first
    alert of the collection with its id. *)
Lemma original_alert_index_of (al : list alert) (alert : alert) :
  In alert al ->
  exists l1 x l2,
    original_alert_index (a_id alert) al = Some (length l1)
    /\ al = l1 ++ x :: l2
    /\ a_id x = a_id alert
    /\ Forall (fun y => a_id y <> a_id alert) l1
    /\ (alert_ids_unique al -> x = alert).
Proof.
  intros Hin. unfold original_alert_index.
  destruct (find_index (fun o => String.eqb (a_id o) (a_id alert)) al) as [i|] eqn:E.
  - destruct (find_index_Some _ _ _ E) as (l1 & x & l2 & -> & Hl & Hx & Hf).
    apply String.eqb_eq in Hx. subst i. exists l1, x, l2.
    split; [reflexivity|]. split; [reflexivity|]. split; [exact Hx|]. split.
    + eapply Forall_impl; [|exact Hf]. intros y Hy. now apply String.eqb_neq.
    + unfold alert_ids_unique. rewrite map_app. simpl. intros Hnd.
      apply in_app_or in Hin as [Hin|[Hin|Hin]]; [|exact Hin|].
      * exfalso. rewrite Forall_forall in Hf. specialize (Hf alert Hin).
        now rewrite String.eqb_refl in Hf.
      * exfalso. apply NoDup_remove_2 in Hnd. apply Hnd. apply in_or_app. right.
        rewrite Hx. now apply in_map.
  - exfalso. apply find_index_None in E. rewrite Forall_forall in E.
    specialize (E alert Hin). now rewrite String.eqb_refl in E.
Qed.

(** X13.  The select box of a displayed alert sets the status of the first alert
    of the collection with the alert's id (the alert itself when ids are
    distinct), changes no other field, alert, company or selection entry,
    and saves the collection; when it gives the status that this alert has,
    nothing happens at all. *)
Theorem update_status_individual_spec (alert : alert) (new_status_individual : string)
        (p : page) :
  In alert (alerts (page_session p)) ->
  let s := page_session p in
  let p' := update_status_individual alert new_status_individual p in
  exists l1 x l2,
    alerts s = l1 ++ x :: l2
    /\ a_id x = a_id alert
    /\ Forall (fun y => a_id y <> a_id alert) l1
    /\ (alert_ids_unique (alerts s) -> x = alert)
    /\ (new_status_individual = a_status x -> p' = p)
    /\ (new_status_individual <> a_status x ->
        alerts (page_session p') = l1 ++ set_status new_status_individual x :: l2
        /\ companies (page_session p') = companies s
        /\ selected_alerts (page_session p') = selected_alerts s
        /\ events_since s (page_session p') = [SaveAlerts (alerts (page_session p')); Rerun]
        /\ notices_since p p'
           = [OkStatusUpdated (display_victim_name (a_api_data alert))
                              new_status_individual]).
Proof.
  intros Hin. cbv zeta.
  destruct (original_alert_index_of _ alert Hin) as (l1 & x & l2 & Hi & Hal & Hx & Hf & Hu).
  exists l1, x, l2. split; [exact Hal|]. split; [exact Hx|]. split; [exact Hf|].
  split; [exact Hu|].
  assert (Hnth : nth_error (alerts (page_session p)) (length l1) = Some x).
  { rewrite Hal. apply nth_error_middle. }
  assert (Hupd : forall f, update_at (length l1) f (alerts (page_session p))
                           = l1 ++ f x :: l2).
  { intros f. rewrite Hal. apply update_at_middle. }
  unfold update_status_individual. rewrite Hi, Hnth.
  split.
  - intros ->. now rewrite String.eqb_refl.
  - intros Hne. apply String.eqb_neq in Hne. rewrite Hne. simpl. rewrite Hupd.
    split; [reflexivity|]. split; [reflexivity|]. split; [reflexivity|]. split.
    + apply Fetch.events_since_app. unfold save_alerts, emit. simpl.
      now rewrite <- app_assoc.
    + now apply Edit.notices_since_app.
Qed.

Lemma update_status_individual_spec_witness :
  let a := Sample.alert_of "a-1" "c-acme" "Acme" "Open" in
  let p := mkPage Sample.triage_session None [] in
  exists l1 x l2,
    alerts Sample.triage_session = l1 ++ x :: l2
    /\ (alert_ids_unique (alerts Sample.triage_session) -> x = a)
    /\ ("Complete"%string <> a_status x ->
        alerts (page_session (update_status_individual a "Complete" p))
        = l1 ++ set_status "Complete" x :: l2).
Proof.
  cbv zeta.
  destruct (update_status_individual_spec (Sample.alert_of "a-1" "c-acme" "Acme" "Open")
              "Complete" (mkPage Sample.triage_session None []))
    as (l1 & x & l2 & H1 & _ & _ & H2 & _ & H3).
  - now left.
  - exists l1, x, l2. split; [exact H1|]. split; [exact H2|].
    intros Hne. now destruct (H3 Hne).
Defined.

Lemma selectbox_default_spec (status : string) :
  (known_status status -> selectbox_default status = status)
  /\ (~ known_status status -> selectbox_default status = "Open"%string).
Proof.
  unfold known_status, selectbox_default, status_options_individual. simpl.
  destruct (String.eqb_spec status "Open") as [->|H1]; [split; [reflexivity | tauto]|].
  destruct (String.eqb_spec status "In Progress") as [->|H2];
    [split; [reflexivity | tauto]|].
  destruct (String.eqb_spec status "Complete") as [->|H3]; [split; [reflexivity | tauto]|].
  destruct (String.eqb_spec status "False Positive") as [->|H4];
    [split; [reflexivity | tauto]|].
  split; [|reflexivity]. intros [H|[H|[H|[H|[]]]]]; congruence.
Qed.

(** X14.  A status that is none of the four does not survive the display of its
    alert: the select box, left alone, gives "Open", and the handler
    writes it into the alert and saves the collection.  For one of the four
    statuses the select box, left alone, changes nothing. *)
Theorem untouched_select_box (alert : alert) (p : page) :
  In alert (alerts (page_session p)) ->
  alert_ids_unique (alerts (page_session p)) ->
  let s := page_session p in
  let p' := update_status_individual alert (selectbox_default (a_status alert)) p in
  (known_status (a_status alert) -> p' = p)
  /\ (~ known_status (a_status alert) ->
      exists l1 l2,
        alerts s = l1 ++ alert :: l2
        /\ alerts (page_session p') = l1 ++ set_status "Open" alert :: l2
        /\ In (SaveAlerts (alerts (page_session p'))) (events_since s (page_session p'))).
Proof.
  intros Hin Hu. cbv zeta.
  destruct (selectbox_default_spec (a_status alert)) as [Hk Hn].
  destruct (original_alert_index_of _ alert Hin) as (l1 & x & l2 & Hi & Hal & _ & _ & Hx).
  specialize (Hx Hu). subst x.
  assert (Hnth : nth_error (alerts (page_session p)) (length l1) = Some alert).
  { rewrite Hal. apply nth_error_middle. }
  assert (Hupd : forall f, update_at (length l1) f (alerts (page_session p))
                           = l1 ++ f alert :: l2).
  { intros f. rewrite Hal. apply update_at_middle. }
  unfold update_status_individual. rewrite Hi, Hnth.
  split.
  - intros H. rewrite (Hk H). now rewrite String.eqb_refl.
  - intros H. rewrite (Hn H).
    assert (Hne : String.eqb "Open" (a_status alert) = false).
    { apply String.eqb_neq. intros E. apply H. rewrite <- E. now left. }
    rewrite Hne. simpl. exists l1, l2. rewrite Hupd.
    split; [exact Hal|]. split; [reflexivity|].
    rewrite (Fetch.events_since_app _ _
               [SaveAlerts (l1 ++ set_status "Open" alert :: l2); Rerun]); [now left|].
    unfold save_alerts, emit. simpl. now rewrite <- app_assoc.
Qed.

Lemma untouched_select_box_witness :
  let a := Sample.alert_of "a-9" "c-acme" "Acme" "Escalated" in
  let p := mkPage (mkSession [Sample.acme] [a] [] 0 0 []) None [] in
  exists l1 l2,
    [a] = l1 ++ a :: l2
    /\ alerts (page_session (update_status_individual a (selectbox_default (a_status a)) p))
       = l1 ++ set_status "Open" a :: l2.
Proof.
  cbv zeta.
  destruct (untouched_select_box
              (Sample.alert_of "a-9" "c-acme" "Acme" "Escalated")
              (mkPage (mkSession [Sample.acme]
                                 [Sample.alert_of "a-9" "c-acme" "Acme" "Escalated"]
                                 [] 0 0 []) None []))
    as [_ H].
  - now left.
  - unfold alert_ids_unique. simpl. repeat constructor. intros [].
  - destruct H as (l1 & l2 & H1 & H2 & _).
    + unfold known_status. simpl. intuition discriminate.
    + exists l1, l2. split; assumption.
Defined.

(** X15.  The delete button of a displayed alert removes the first alert of the
    collection with the alert's id (the alert itself when ids are
    distinct) and nothing else, drops the id from the selection and leaves
    the other entries, and saves the collection. *)
Theorem delete_alert_spec (alert : alert) (p : page) :
  In alert (alerts (page_session p)) ->
  keys_unique (selected_alerts (page_session p)) ->
  let s := page_session p in
  let p' := delete_alert alert p in
  exists l1 x l2,
    alerts s = l1 ++ x :: l2
    /\ a_id x = a_id alert
    /\ Forall (fun y => a_id y <> a_id alert) l1
    /\ (alert_ids_unique (alerts s) -> x = alert /\ ~ In alert (l1 ++ l2))
    /\ alerts (page_session p') = l1 ++ l2
    /\ companies (page_session p') = companies s
    /\ dict_has (a_id alert) (selected_alerts (page_session p')) = false
    /\ (forall k, k <> a_id alert ->
                  dict_get k (selected_alerts (page_session p'))
                  = dict_get k (selected_alerts s))
    /\ events_since s (page_session p') = [SaveAlerts (l1 ++ l2); Rerun]
    /\ notices_since p p' = [OkAlertDeleted (display_victim_name (a_api_data alert))].
Proof.
  intros Hin Hk. cbv zeta.
  destruct (original_alert_index_of _ alert Hin) as (l1 & x & l2 & Hi & Hal & Hx & Hf & Hu).
  exists l1, x, l2. split; [exact Hal|]. split; [exact Hx|]. split; [exact Hf|].
  split.
  { intros Hnd. specialize (Hu Hnd). subst x. split; [reflexivity|].
    unfold alert_ids_unique in Hnd. rewrite Hal, map_app in Hnd. simpl in Hnd.
    apply NoDup_remove_2 in Hnd. intros Hin'. apply Hnd. rewrite <- map_app.
    now apply in_map. }
  unfold delete_alert. rewrite Hi.
  destruct (dict_del_spec (a_id alert) _ Hk) as (_ & Hdel & Hget).
  destruct (dict_has (a_id alert) (selected_alerts (page_session p))) eqn:Eh; simpl;
    rewrite Hal, pop_middle;
    (split; [reflexivity|]); (split; [reflexivity|]); (split; [|split; [|split]]);
    try (apply Fetch.events_since_app; unfold save_alerts, emit; simpl;
         now rewrite <- app_assoc);
    try (now apply Edit.notices_since_app);
    try assumption; try reflexivity.
Qed.

Lemma delete_alert_spec_witness :
  let a := Sample.alert_of "a-1" "c-acme" "Acme" "Open" in
  let p' := delete_alert a (mkPage Sample.triage_session None []) in
  exists l1 x l2,
    alerts Sample.triage_session = l1 ++ x :: l2
    /\ alerts (page_session p') = l1 ++ l2
    /\ dict_has (a_id a) (selected_alerts (page_session p')) = false.
Proof.
  cbv zeta.
  destruct (delete_alert_spec (Sample.alert_of "a-1" "c-acme" "Acme" "Open")
              (mkPage Sample.triage_session None []))
    as (l1 & x & l2 & H1 & _ & _ & _ & H2 & _ & H3 & _).
  - now left.
  - unfold keys_unique. simpl. repeat constructor. intros [].
  - exists l1, x, l2. auto.
Defined.

End AlertOps.

(* ------------------------------------------------------------------ *)
(** ** The collection under triage *)

Module TriageInvariant.
Import PyStr Spec PyStrFacts Containers.
Local Open Scope list_scope.

Lemma apply_status_map {B : Type} (f : alert -> B) (ids : list string) (status : string)
      (al : list alert) :
  (forall a, f (set_status status a) = f a) ->
  map f (fst (apply_status ids status al)) = map f al.
Proof.
  intros Hf. induction al as [|a al IH]; simpl; [reflexivity|].
  destruct (apply_status ids status al) as [r n]. simpl in IH.
  destruct (mem (a_id a) ids); simpl; now rewrite ?Hf, IH.
Qed.

Lemma collection_ok_map (al al' : list alert) :
  map triple al' = map triple al -> map a_id al' = map a_id al ->
  collection_ok al -> collection_ok al'.
Proof. unfold collection_ok, unique_triples, alert_ids_unique. now intros -> ->. Qed.

Lemma bulk_set_status_alerts (ids : list string) (status : string) (s : session) :
  alerts (bulk_set_status ids status s) = alerts s
  \/ alerts (bulk_set_status ids status s) = fst (apply_status ids status (alerts s)).
Proof.
  unfold bulk_set_status. destruct ids as [|id ids]; [now left|]. right.
  destruct (apply_status (id :: ids) status (alerts s)) as [al n].
  destruct (0 <? n)%nat; reflexivity.
Qed.

(** X16.  Removing a company, the bulk update, the status select box and the
    delete button keep the collection free of alerts that share a triple
    and of alerts that share an id. *)
Theorem triage_keeps_collection_ok (p : page) :
  collection_ok (alerts (page_session p)) ->
  (forall i, collection_ok (alerts (remove_company i (page_session p))))
  /\ (forall ids status, collection_ok (alerts (bulk_set_status ids status (page_session p))))
  /\ (forall alert status,
         collection_ok (alerts (page_session (update_status_individual alert status p))))
  /\ (forall alert, collection_ok (alerts (page_session (delete_alert alert p)))).
Proof.
  intros H. split; [|split; [|split]].
  - intros i. unfold remove_company.
    destruct (nth_error (companies (page_session p)) i) as [c|]; [|exact H]. simpl.
    destruct H as [H1 H2]. split; now apply filter_map_NoDup.
  - intros ids status.
    destruct (bulk_set_status_alerts ids status (page_session p)) as [->| ->]; [exact H|].
    apply (collection_ok_map (alerts (page_session p))); [| |exact H];
      now apply apply_status_map.
  - intros alert status. unfold update_status_individual.
    destruct (original_alert_index _ _) as [idx|]; [|exact H].
    destruct (nth_error _ idx) as [x|]; [|exact H].
    destruct (negb _); [|exact H]. simpl.
    apply (collection_ok_map (alerts (page_session p))); [| |exact H];
      now apply update_at_map.
  - intros alert. unfold delete_alert.
    destruct (original_alert_index _ _) as [idx|]; [|exact H].
    destruct H as [H1 H2].
    destruct (dict_has _ _); simpl; split;
      unfold unique_triples, alert_ids_unique; rewrite pop_map; now apply pop_NoDup.
Qed.

Lemma triage_keeps_collection_ok_witness :
  collection_ok
    (alerts (bulk_set_status ["a-1"%string] "Complete"
               (page_session (mkPage Sample.triage_session None [])))).
Proof.
  assert (H0 : collection_ok (alerts (page_session (mkPage Sample.triage_session None [])))).
  { split; [unfold unique_triples | unfold alert_ids_unique];
      simpl; repeat constructor; intros []. }
  destruct (triage_keeps_collection_ok _ H0) as (_ & H & _).
  apply H.
Defined.

End TriageInvariant.

(* ------------------------------------------------------------------ *)
(** ** The captions of the company list *)

Module Captions.
Import PyStr Spec PyStrFacts.
Local Open Scope list_scope.

Lemma length_app (a b : string) :
  String.length (a ++ b)%string = (String.length a + String.length b)%nat.
Proof. induction a as [|c a IH]; simpl; [reflexivity | now rewrite IH]. Qed.

Lemma take_spec (n : nat) (s : string) :
  exists rest, s = (take n s ++ rest)%string
               /\ String.length (take n s) = Nat.min n (String.length s).
Proof.
  revert s. induction n as [|n IH]; intros s; simpl.
  - exists s. split; reflexivity.
  - destruct s as [|c s]; simpl.
    + exists EmptyString. split; reflexivity.
    + destruct (IH s) as (rest & H1 & H2). exists rest. simpl. split; congruence.
Qed.

Lemma description_caption_spec (c : company) (d : string) :
  description_caption c = Some d ->
  exists shown rest dots,
    c_description c = (shown ++ rest)%string
    /\ d = ("Desc: " ++ shown ++ dots)%string
    /\ (String.length shown <= 50)%nat
    /\ ((String.length (c_description c) <= 50)%nat ->
        rest = EmptyString /\ dots = EmptyString)
    /\ ((50 < String.length (c_description c))%nat -> dots = "..."%string).
Proof.
  unfold description_caption.
  destruct (truthy (c_description c)); [|discriminate]. intros [= <-].
  destruct (take_spec 50 (c_description c)) as (rest & Hr & Hl).
  exists (take 50 (c_description c)), rest,
         (if (50 <? String.length (c_description c))%nat then "..." else "")%string.
  split; [exact Hr|]. split; [reflexivity|]. split; [rewrite Hl; lia|].
  assert (Hlen : String.length (c_description c)
                 = (String.length (take 50 (c_description c))
                    + String.length rest)%nat) by (rewrite <- length_app; congruence).
  rewrite Hl in Hlen.
  destruct (Nat.ltb_spec 50 (String.length (c_description c))) as [Hlt|Hle].
  - split; [intros; lia | reflexivity].
  - split; [|intros; lia]. intros _. split; [|reflexivity].
    destruct rest; [reflexivity | cbn [String.length] in Hlen; lia].
Qed.

(** X17.  The company list never shows more than 73 characters of keywords or
    53 of description: a text is shown whole when it has at most 70 (50)
    characters, and else as its first 70 (50) characters followed by three
    dots; a company without description has no description caption. *)
Theorem captions_are_bounded (c : company) :
  let full := join ", " (c_keywords c) in
  (String.length (keywords_display c) <= 73)%nat
  /\ ((String.length full <= 70)%nat -> keywords_display c = full)
  /\ ((70 < String.length full)%nat ->
      exists shown rest,
        full = (shown ++ rest)%string
        /\ String.length shown = 70%nat
        /\ keywords_display c = (shown ++ "...")%string)
  /\ (c_description c = EmptyString <-> description_caption c = None)
  /\ (forall d, description_caption c = Some d ->
                exists shown rest dots,
                  c_description c = (shown ++ rest)%string
                  /\ d = ("Desc: " ++ shown ++ dots)%string
                  /\ (String.length shown <= 50)%nat
                  /\ ((String.length (c_description c) <= 50)%nat ->
                      rest = EmptyString /\ dots = EmptyString)
                  /\ ((50 < String.length (c_description c))%nat -> dots = "..."%string)).
Proof.
  cbv zeta.
  assert (Hd : c_description c = EmptyString <-> description_caption c = None).
  { unfold description_caption. destruct (c_description c); simpl; split; congruence. }
  unfold keywords_display.
  destruct (take_spec 70 (join ", " (c_keywords c))) as (rest & Hr & Hl).
  destruct (Nat.ltb_spec 70 (String.length (join ", " (c_keywords c)))) as [Hlt|Hle].
  - split; [rewrite length_app, Hl; cbn [String.length]; lia|]. split; [lia|]. split.
    + intros _. exists (take 70 (join ", " (c_keywords c))), rest.
      split; [exact Hr|]. split; [rewrite Hl; lia | reflexivity].
    + split; [exact Hd | apply description_caption_spec].
  - split; [lia|]. split; [reflexivity|]. split; [lia|].
    split; [exact Hd | apply description_caption_spec].
Qed.

End Captions.

(* ------------------------------------------------------------------ *)
(** ** The ids of the alerts that a fetch adds *)

Module FetchIds.
Import PyStr Spec PyStrFacts Pipeline.
Local Open Scope list_scope.

Lemma sorted_snoc (l : list nat) (x : nat) :
  StronglySorted Nat.lt l -> Forall (fun i => (i < x)%nat) l ->
  StronglySorted Nat.lt (l ++ [x]).
Proof.
  induction 1 as [|a l Hs IH Ha]; intros Hf; simpl; [repeat constructor|].
  inversion Hf; subst. constructor; [auto|].
  apply Forall_app. split; [assumption | now repeat constructor].
Qed.

Section Ids.
Variable uuid4 : nat -> string.
Variable now_iso : nat -> string.
Variables (window : option Z) (today : Z) (api_data : list entry).

Local Abbreviation drawn := (Spec.drawn uuid4).

Lemma process_entry_drawn s0 c keyword acc e :
  drawn s0 acc -> drawn s0 (process_entry uuid4 now_iso window today c keyword acc e).
Proof.
  destruct acc as [s n]. intros (idxs & Hids & Hr & Hs & Hle). simpl in *.
  unfold process_entry.
  destruct (entry_date_filter_session window today e s) as (evs & Hsess & _).
  destruct (entry_date_filter window today e s) as [v s1]. simpl in Hsess. subst s1.
  assert (Hsame : Spec.drawn uuid4 s0
                    (mkSession (companies s) (alerts s) (selected_alerts s) (uuids_drawn s)
                               (ticks s) (trace s ++ evs), n)).
  { exists idxs. simpl. auto. }
  destruct v; [exact Hsame|].
  destruct (entry_matches keyword e); [|exact Hsame].
  unfold entry_identifier_of. cbv zeta.
  match goal with
  | |- context [alert_exists ?a ?b ?c ?d] => destruct (alert_exists a b c d)
  end.
  - exists idxs. simpl. split; [assumption|]. split; [|split; [assumption | lia]].
    eapply Forall_impl; [|exact Hr]. simpl. intros i Hi. lia.
  - exists (idxs ++ [S (uuids_drawn s)]). simpl.
    split; [rewrite !map_app, Hids; simpl; now rewrite app_assoc|].
    split; [|split; [|lia]].
    + apply Forall_app. split.
      * eapply Forall_impl; [|exact Hr]. simpl. intros i Hi. lia.
      * constructor; [lia | constructor].
    + apply sorted_snoc; [assumption|].
      eapply Forall_impl; [|exact Hr]. simpl. intros i Hi. lia.
Qed.

Lemma match_feed_drawn s :
  drawn s (match_feed uuid4 now_iso window today api_data s).
Proof.
  unfold match_feed. apply (fold_left_invariant _ (Spec.drawn uuid4 s)).
  2:{ exists []. simpl. rewrite app_nil_r. repeat split; [constructor | constructor | lia]. }
  intros a c _ Ha. unfold process_company.
  apply (fold_left_invariant _ (Spec.drawn uuid4 s)); [|exact Ha].
  intros a' kw _ Ha'. unfold process_keyword.
  apply (fold_left_invariant _ (Spec.drawn uuid4 s)); [|exact Ha'].
  intros a'' e _. apply process_entry_drawn.
Qed.

(** X18.  When the identifiers that the generator gives during a fetch are
    pairwise different and none of them is the id of an alert of the
    collection, the fetch leaves no two alerts with the same id. *)
Theorem fetch_keeps_alert_ids_unique (s : session) :
  let s' := fetch_and_check uuid4 now_iso window today (Feed api_data) s in
  alert_ids_unique (alerts s) ->
  (forall i, (uuids_drawn s <= i < uuids_drawn s')%nat ->
             ~ In (uuid4 i) (map a_id (alerts s))) ->
  (forall i j, (uuids_drawn s <= i)%nat -> (i < j)%nat -> (j < uuids_drawn s')%nat ->
               uuid4 i <> uuid4 j) ->
  alert_ids_unique (alerts s').
Proof.
  cbv zeta. unfold fetch_and_check.
  destruct (companies s) as [|c0 cs] eqn:Ec; [auto|].
  pose proof (match_feed_drawn (emit (Show (OkFetched (length api_data))) s))
    as (idxs & Hids & Hr & Hs & Hle).
  destruct (match_feed uuid4 now_iso window today api_data
                       (emit (Show (OkFetched (length api_data))) s)) as [s2 n].
  simpl in Hids, Hr, Hle.
  assert (Hd : uuids_drawn (if (0 <? n)%nat
                            then emit Rerun (emit (Show (OkNewAlerts n)) (save_alerts s2))
                            else emit (Show InfoNoNewAlerts) s2) = uuids_drawn s2)
    by (destruct (0 <? n)%nat; reflexivity).
  assert (Ha : alerts (if (0 <? n)%nat
                       then emit Rerun (emit (Show (OkNewAlerts n)) (save_alerts s2))
                       else emit (Show InfoNoNewAlerts) s2) = alerts s2)
    by (destruct (0 <? n)%nat; reflexivity).
  rewrite Hd, Ha. intros Hu Hfresh Hinj.
  unfold alert_ids_unique in *. rewrite Hids. apply NoDup_app; [assumption| |].
  - clear Hids Hle Hfresh. induction Hs as [|i idxs Hs IH Hi]; simpl; [constructor|].
    inversion Hr as [|? ? Hri Hr']; subst. constructor; [|now apply IH].
    intros Hin. apply in_map_iff in Hin as (j & Hj & Hin).
    rewrite Forall_forall in Hi, Hr'. specialize (Hi j Hin). specialize (Hr' j Hin).
    simpl in Hri, Hr'. apply (Hinj i j); [lia | assumption | lia | congruence].
  - intros x Hx Hin. apply in_map_iff in Hin as (i & <- & Hin).
    rewrite Forall_forall in Hr. specialize (Hr i Hin). simpl in Hr.
    apply (Hfresh i); [lia | assumption].
Qed.

End Ids.

Lemma fetch_keeps_alert_ids_unique_witness :
  alert_ids_unique
    (alerts (fetch_and_check Sample.uuid4 Sample.now_iso None Sample.today
                             (Feed [Sample.entry_with_link None]) Sample.triage_session)).
Proof.
  apply (fetch_keeps_alert_ids_unique Sample.uuid4 Sample.now_iso None Sample.today
           [Sample.entry_with_link None] Sample.triage_session).
  - unfold alert_ids_unique. simpl. repeat constructor. intros [].
  - intros i Hi.
    change (uuids_drawn (fetch_and_check Sample.uuid4 Sample.now_iso None Sample.today
                           (Feed [Sample.entry_with_link None]) Sample.triage_session))
      with 4%nat in Hi.
    assert (Hc : i = 2%nat \/ i = 3%nat) by (simpl in Hi; lia).
    destruct Hc as [-> | ->]; simpl; intuition discriminate.
  - intros i j Hi Hij Hj.
    change (uuids_drawn (fetch_and_check Sample.uuid4 Sample.now_iso None Sample.today
                           (Feed [Sample.entry_with_link None]) Sample.triage_session))
      with 4%nat in Hj.
    assert (Hc : i = 2%nat /\ j = 3%nat) by (simpl in Hi; lia).
    destruct Hc as [-> ->]. discriminate.
Defined.

End FetchIds.
